(** * dnsthing: the host registry, its event loop and the hosts-file render

    A shallow embedding of [dnsthing.py].  The Python class [hostRegistry]
    keeps two dictionaries, [byname] and [byid], mutates them on container
    [start] and [die] events and rewrites a delimited section of a hosts
    file after each handled event.

    Modelling choices, all read off the source:
    - Python dictionaries keep insertion order and are iterated by the
      render ([self.byname.items()]), so a dictionary is an association
      list with unique keys: assignment replaces in place or appends,
      [del] removes and raises [KeyError] on a missing key.
    - Python exceptions are an outcome [Raise e]; mutation done before the
      exception stays, so a computation is [S -> outcome A * S].
    - The record [this] built by [register] is stored under both
      dictionaries and never mutated afterwards, so storing its value twice
      is the same as storing the shared object.
    - Logging calls have no effect on the program state and are left out.
    - The inspect document of a container always carries
      [NetworkSettings], and every endpoint an [IPAddress]; the key
      [Networks] is the one the source tests for, so it is optional.
    - The program runs under Python 3 on Linux, in a UTF-8 locale.  The
      hosts file is the string of its bytes, absent when it cannot be
      opened.  It is read in text mode: the bytes are decoded, strictly,
      into Unicode characters (code points, in [N]), line ends of the
      three kinds are read as line feeds, and [strip] removes the
      whitespace of [str.isspace].
    - A Python string is kept as the bytes of its UTF-8 encoding: the
      names and addresses the Docker client hands over, the markers, the
      lines of the file once stripped.  Equality, concatenation,
      [startswith('/')], formatting and [join] are the same on such
      bytes as on the characters, and what [f.write] puts in the file
      are these bytes; only [readlines] and [strip] look at characters.
    - The Docker client is an oracle: the list of running containers is
      an argument of [scan], and every event of the stream comes with
      the answer [containers.get] gives when the event is processed. *)

From Stdlib Require Import List String Ascii Bool Arith NArith ZArith Lia Zify.
Import ListNotations.
Open Scope string_scope.
Open Scope list_scope.

(** ** Exceptions and computations *)

Inductive exn : Type :=
| AttributeError
| KeyError
| ValueError
| OSError
| UnicodeDecodeError
| NotFound
| ConnectionError.

Inductive outcome (A : Type) : Type :=
| Ok (a : A)
| Raise (e : exn).
Arguments Ok {A} a.
Arguments Raise {A} e.

Module Py.

(** A computation over a mutable state [S]: the state it leaves is
    returned also when it raises. *)
Definition M (S A : Type) : Type := S -> outcome A * S.

Definition ret {S A} (a : A) : M S A := fun s => (Ok a, s).

Definition bind {S A B} (m : M S A) (f : A -> M S B) : M S B :=
  fun s => match m s with
           | (Ok a, s') => f a s'
           | (Raise e, s') => (Raise e, s')
           end.

Definition raise {S A} (e : exn) : M S A := fun s => (Raise e, s).
Definition get {S} : M S S := fun s => (Ok s, s).
Definition put {S} (s : S) : M S unit := fun _ => (Ok tt, s).
Definition modify {S} (f : S -> S) : M S unit := fun s => (Ok tt, f s).

(** Lifting of a pure outcome. *)
Definition of_outcome {S A} (o : outcome A) : M S A := fun s => (o, s).

(** [try: m  except <handled>: h] *)
Definition try_except {S A} (m : M S A) (handled : exn -> bool) (h : M S A)
  : M S A :=
  fun s => match m s with
           | (Ok a, s') => (Ok a, s')
           | (Raise e, s') => if handled e then h s' else (Raise e, s')
           end.

(** Running a computation on a component of a larger state. *)
Definition zoom {S T A} (proj : T -> S) (upd : S -> T -> T) (m : M S A)
  : M T A :=
  fun t => let (o, s') := m (proj t) in (o, upd s' t).

End Py.

Declare Scope py_scope.
Delimit Scope py_scope with py.
Notation "x <- m ;; k" := (Py.bind m (fun x => k))
  (at level 61, m at next level, right associativity) : py_scope.
Notation "m ;; k" := (Py.bind m (fun _ => k))
  (at level 61, right associativity) : py_scope.

(** ** Insertion-ordered dictionaries with string keys *)

Module Dict.

Definition t (V : Type) : Type := list (string * V).

Definition empty {V} : t V := [].

Fixpoint lookup {V} (k : string) (d : t V) : option V :=
  match d with
  | [] => None
  | (k', v) :: d' => if String.eqb k k' then Some v else lookup k d'
  end.

(** [k in d] *)
Definition mem {V} (k : string) (d : t V) : bool :=
  match lookup k d with Some _ => true | None => false end.

(** [d[k] = v]: an existing key keeps its place, a new one goes last. *)
Fixpoint set {V} (k : string) (v : V) (d : t V) : t V :=
  match d with
  | [] => [(k, v)]
  | (k', v') :: d' =>
      if String.eqb k k' then (k', v) :: d' else (k', v') :: set k v d'
  end.

(** The dictionary without the key [k]. *)
Fixpoint remove {V} (k : string) (d : t V) : t V :=
  match d with
  | [] => []
  | (k', v') :: d' =>
      if String.eqb k k' then remove k d' else (k', v') :: remove k d'
  end.

(** [del d[k]] *)
Definition del {V} (k : string) (d : t V) : outcome (t V) :=
  if mem k d then Ok (remove k d) else Raise KeyError.

(** [d.items()] *)
Definition items {V} (d : t V) : list (string * V) := d.

(** Truth value of a dictionary: non-empty. *)
Definition truthy {V} (d : t V) : bool :=
  match d with [] => false | _ => true end.

End Dict.

(** ** Containers as the Docker client hands them over *)

(** One entry of [attrs['NetworkSettings']['Networks']]. *)
Record endpoint : Type := { IPAddress : string }.

(** [attrs['NetworkSettings']]; the key ['Networks'] may be missing. *)
Record network_settings : Type :=
  { Networks : option (Dict.t endpoint) }.

Record container : Type :=
  { name : string;
    id : string;
    NetworkSettings : network_settings }.

(** What [run] passes to a handler: the inspected container, or the empty
    dictionary [{}] it substitutes when inspection raises [NotFound]. *)
Inductive inspected : Type :=
| Container (c : container)
| EmptyDict.

(** Attribute access [container.name], [container.id], [container.attrs]:
    a dictionary has none of these attributes. *)
Definition getattr {S A} (f : container -> A) (o : inspected) : Py.M S A :=
  match o with
  | Container c => Py.ret (f c)
  | EmptyDict => Py.raise AttributeError
  end.

(** [if name.startswith('/'): name = name[1:]] *)
Definition strip_slash (n : string) : string :=
  match n with
  | String "/"%char rest => rest
  | _ => n
  end.

(** ** The registry *)

(** The dictionary [this] of [register]. *)
Record host : Type :=
  { host_name : string;
    host_id : string;
    networks : Dict.t string }.

Record registry : Type :=
  { byname : Dict.t host;
    byid : Dict.t host }.

(** [__init__] *)
Definition registry_init : registry :=
  {| byname := Dict.empty; byid := Dict.empty |}.

Definition set_byid (k : string) (h : host) : Py.M registry unit :=
  Py.modify (fun r => {| byname := byname r; byid := Dict.set k h (byid r) |}).

Definition set_byname (k : string) (h : host) : Py.M registry unit :=
  Py.modify (fun r => {| byname := Dict.set k h (byname r); byid := byid r |}).

Definition del_byid (k : string) : Py.M registry unit :=
  fun r => match Dict.del k (byid r) with
           | Ok d => (Ok tt, {| byname := byname r; byid := d |})
           | Raise e => (Raise e, r)
           end.

Definition del_byname (k : string) : Py.M registry unit :=
  fun r => match Dict.del k (byname r) with
           | Ok d => (Ok tt, {| byname := d; byid := byid r |})
           | Raise e => (Raise e, r)
           end.

(** The body of the loop of [register] over [Networks.items()]: an
    endpoint with a non-empty address is entered under its network name. *)
Definition enter_network (acc : Dict.t string) (item : string * endpoint)
  : Dict.t string :=
  let (nwname, nw) := item in
  if String.eqb (IPAddress nw) "" then acc
  else Dict.set nwname (IPAddress nw) acc.

(** The loop itself, from [this['networks'] = {}]. *)
Definition collect_networks (nws : Dict.t endpoint) : Dict.t string :=
  fold_left enter_network (Dict.items nws) Dict.empty.

Section Registry.
Local Open Scope py_scope.

Definition register (o : inspected) : Py.M registry unit :=
  name0 <- getattr name o ;;
  let name := strip_slash name0 in
  r <- Py.get ;;
  if Dict.mem name (byname r) then Py.ret tt
  else
    settings <- getattr NetworkSettings o ;;
    match Networks settings with
    | None => Py.ret tt
    | Some nws =>
        cid <- getattr id o ;;
        let this := {| host_name := name;
                       host_id := cid;
                       networks := collect_networks nws |} in
        if Dict.truthy (networks this) then
          set_byid cid this ;;
          set_byname name this
        else Py.ret tt
    end.

Definition unregister (o : inspected) : Py.M registry unit :=
  name0 <- getattr name o ;;
  let name := strip_slash name0 in
  cid <- getattr id o ;;
  r <- Py.get ;;
  if Dict.mem cid (byid r) then
    del_byid cid ;;
    del_byname name
  else Py.ret tt.

End Registry.

(** A call of one of the two operations, and a sequence of calls on the
    same registry; the sequence stops at the first exception, as the
    caller does not catch any. *)
Inductive op : Type :=
| Register (o : inspected)
| Unregister (o : inspected).

Definition run_op (x : op) : Py.M registry unit :=
  match x with
  | Register o => register o
  | Unregister o => unregister o
  end.

Fixpoint run_ops (xs : list op) : Py.M registry unit :=
  match xs with
  | [] => Py.ret tt
  | x :: xs' => Py.bind (run_op x) (fun _ => run_ops xs')
  end.

(** ** Text of the hosts file *)

Definition _hostfile_start_marker : string := "# === start dnsthing ===".
Definition _hostfile_end_marker : string := "# === end dnsthing ===".

Definition LF : ascii := "010"%char.
Definition newline : string := String LF "".

Section DecodedText.
Local Open Scope N_scope.

(** *** Decoded text

    [open(fname, "r+")] opens the file in text mode: what [readlines]
    returns are strings of Unicode characters, decoded from the bytes of
    the file in the encoding of the locale, here UTF-8, with errors
    reported.  A character is its code point. *)

Definition text : Type := list N.

Definition byte_of (a : ascii) : N := N_of_ascii a.
Definition ascii_of (n : N) : ascii := ascii_of_N n.

(** The six low bits of a continuation byte [10xxxxxx]. *)
Definition continuation (a : ascii) : option N :=
  let b := byte_of a in
  if (0x80 <=? b) && (b <=? 0xBF) then Some (b - 0x80) else None.

Definition cons_ok (c : N) (o : outcome text) : outcome text :=
  match o with
  | Ok t => Ok (c :: t)
  | Raise e => Raise e
  end.

(** The strict UTF-8 decoder: a lead byte announces one to four bytes;
    overlong forms, surrogates, values above U+10FFFF, stray or missing
    continuation bytes raise [UnicodeDecodeError]. *)
Fixpoint decode (s : string) : outcome text :=
  match s with
  | EmptyString => Ok []
  | String a0 s1 =>
      let b0 := byte_of a0 in
      if b0 <? 0x80 then cons_ok b0 (decode s1)
      else if (0xC2 <=? b0) && (b0 <=? 0xDF) then
        match s1 with
        | String a1 s2 =>
            match continuation a1 with
            | Some c1 => cons_ok ((b0 - 0xC0) * 64 + c1) (decode s2)
            | None => Raise UnicodeDecodeError
            end
        | _ => Raise UnicodeDecodeError
        end
      else if (0xE0 <=? b0) && (b0 <=? 0xEF) then
        match s1 with
        | String a1 (String a2 s3) =>
            match continuation a1, continuation a2 with
            | Some c1, Some c2 =>
                let c := (b0 - 0xE0) * 4096 + c1 * 64 + c2 in
                if (c <? 0x800) || ((0xD800 <=? c) && (c <=? 0xDFFF))
                then Raise UnicodeDecodeError
                else cons_ok c (decode s3)
            | _, _ => Raise UnicodeDecodeError
            end
        | _ => Raise UnicodeDecodeError
        end
      else if (0xF0 <=? b0) && (b0 <=? 0xF4) then
        match s1 with
        | String a1 (String a2 (String a3 s4)) =>
            match continuation a1, continuation a2, continuation a3 with
            | Some c1, Some c2, Some c3 =>
                let c := (b0 - 0xF0) * 262144 + c1 * 4096 + c2 * 64 + c3 in
                if (c <? 0x10000) || (0x10FFFF <? c)
                then Raise UnicodeDecodeError
                else cons_ok c (decode s4)
            | _, _, _ => Raise UnicodeDecodeError
            end
        | _ => Raise UnicodeDecodeError
        end
      else Raise UnicodeDecodeError
  end.

(** The UTF-8 bytes of one character, and of a text (the text a render
    handles was decoded or comes from the registry, so it has no
    surrogate and the encoder never raises). *)
Definition encode_char (c : N) : string :=
  if c <? 0x80 then String (ascii_of c) ""
  else if c <? 0x800 then
    String (ascii_of (0xC0 + c / 64))
      (String (ascii_of (0x80 + c mod 64)) "")
  else if c <? 0x10000 then
    String (ascii_of (0xE0 + c / 4096))
      (String (ascii_of (0x80 + (c / 64) mod 64))
         (String (ascii_of (0x80 + c mod 64)) ""))
  else
    String (ascii_of (0xF0 + c / 262144))
      (String (ascii_of (0x80 + (c / 4096) mod 64))
         (String (ascii_of (0x80 + (c / 64) mod 64))
            (String (ascii_of (0x80 + c mod 64)) ""))).

Fixpoint encode (t : text) : string :=
  match t with
  | [] => EmptyString
  | c :: t' => (encode_char c ++ encode t')%string
  end.

Definition LF_char : N := 10.
Definition CR_char : N := 13.

(** Universal newlines, the default of text mode on input: a carriage
    return followed by a line feed, and a carriage return alone, are
    read as one line feed. *)
Fixpoint universal_newlines (t : text) : text :=
  match t with
  | [] => []
  | c :: t' =>
      if c =? CR_char then
        LF_char :: match t' with
                   | c' :: t'' =>
                       if c' =? LF_char then universal_newlines t''
                       else universal_newlines t'
                   | [] => []
                   end
      else c :: universal_newlines t'
  end.

(** Whitespace as [str.strip] sees it: the characters for which
    [str.isspace] holds. *)
Definition is_space (c : N) : bool :=
  ((0x09 <=? c) && (c <=? 0x0D)) || ((0x1C <=? c) && (c <=? 0x20))
  || (c =? 0x85) || (c =? 0xA0) || (c =? 0x1680)
  || ((0x2000 <=? c) && (c <=? 0x200A))
  || (c =? 0x2028) || (c =? 0x2029) || (c =? 0x202F) || (c =? 0x205F)
  || (c =? 0x3000).

Fixpoint lstrip (s : text) : text :=
  match s with
  | [] => []
  | c :: s' => if is_space c then lstrip s' else s
  end.

Fixpoint rstrip (s : text) : text :=
  match s with
  | [] => []
  | c :: s' =>
      match rstrip s' with
      | [] => if is_space c then [] else [c]
      | r => c :: r
      end
  end.

(** [l.strip()] *)
Definition strip (s : text) : text := rstrip (lstrip s).

(** [readlines] on the text read: cut after each line feed, every line
    keeping its terminator; a last line without one is kept as it is. *)
Fixpoint cut_lines (t : text) : list text :=
  match t with
  | [] => []
  | c :: t' =>
      if c =? LF_char then [c] :: cut_lines t'
      else match cut_lines t' with
           | [] => [[c]]
           | l :: ls => (c :: l) :: ls
           end
  end.

(** [f.readlines()] on the bytes of the file: decoding, universal
    newlines, lines. *)
Definition readlines (content : string) : outcome (list text) :=
  match decode content with
  | Ok t => Ok (cut_lines (universal_newlines t))
  | Raise e => Raise e
  end.

(** [[l.strip() for l in f.readlines()]].  The strings the program
    handles are kept as their UTF-8 bytes, so each stripped line is
    encoded again. *)
Definition read_lines (content : string) : outcome (list string) :=
  match readlines content with
  | Ok ls => Ok (map (fun l => encode (strip l)) ls)
  | Raise e => Raise e
  end.

End DecodedText.

(** ['\n'.join(xs)] *)
Definition join (xs : list string) : string := String.concat newline xs.

(** ** List operations of the render *)

(** [lines.index(x)]: position of the first occurrence, [ValueError] when
    there is none. *)
Fixpoint index (x : string) (l : list string) : outcome nat :=
  match l with
  | [] => Raise ValueError
  | y :: l' =>
      if String.eqb y x then Ok 0
      else match index x l' with
           | Ok n => Ok (S n)
           | Raise e => Raise e
           end
  end.

(** [del l[a:b]] for non-negative bounds: the elements at positions
    [a <= i < b] go; nothing goes when [b <= a]. *)
Definition del_slice {A} (a b : nat) (l : list A) : list A :=
  firstn a l ++ skipn (Nat.max a b) l.

Definition is_ValueError (e : exn) : bool :=
  match e with ValueError => true | _ => false end.

Definition is_NotFound (e : exn) : bool :=
  match e with NotFound => true | _ => false end.

Section Render.
Local Open Scope py_scope.

(** The [try] block of [update_hosts] that finds the section and deletes
    it; [except ValueError: pass] leaves [lines] as read. *)
Definition remove_section {S} (lines : list string)
  : Py.M S (list string) :=
  Py.try_except
    (section_start <- Py.of_outcome (index _hostfile_start_marker lines) ;;
     section_end <- Py.of_outcome (index _hostfile_end_marker lines) ;;
     Py.ret (del_slice section_start (section_end + 1) lines))
    is_ValueError
    (Py.ret lines).

(** ['%s %s.%s.%s' % (address, name, nwname, self.domain)] *)
Definition format_entry (address name nwname domain : string) : string :=
  (address ++ " " ++ name ++ "." ++ nwname ++ "." ++ domain)%string.

(** The comprehension over [self.byname.items()] and, inside, over
    [data['networks'].items()]. *)
Definition section_entries (domain : string) (bn : Dict.t host)
  : list string :=
  flat_map
    (fun item : string * host =>
       let (name, data) := item in
       map (fun nw : string * string =>
              let (nwname, address) := nw in
              format_entry address name nwname domain)
           (Dict.items (networks data)))
    (Dict.items bn).

Definition new_section (domain : string) (bn : Dict.t host)
  : list string :=
  [_hostfile_start_marker] ++ section_entries domain bn
                           ++ [_hostfile_end_marker].

End Render.

(** ** The reconciler: file, post-update command, handlers and loop *)

(** What the outside can observe of a run: a completed write of the hosts
    file and a call of the [onupdate] command, in the order they happen. *)
Inductive effect : Type :=
| Wrote (content : string)
| Ran (cmd : string).

(** The constructor arguments that never change: [self.domain] and
    [self.onupdate] ([None], or the runner of a shell command). *)
Record config : Type :=
  { domain : string;
    onupdate : option string }.

(** The registry together with what it acts on: the content of the file
    at [self.hostsfile] ([None] when it cannot be opened for read and
    write) and the effects so far. *)
Record world : Type :=
  { reg : registry;
    hostsfile : option string;
    effects : list effect }.

Definition world_init (file : option string) : world :=
  {| reg := registry_init; hostsfile := file; effects := [] |}.

Definition in_registry {A} (m : Py.M registry A) : Py.M world A :=
  Py.zoom reg
    (fun r w => {| reg := r; hostsfile := hostsfile w; effects := effects w |})
    m.

(** [with lock_file(self.hostsfile) as f]: [open(fname, "r+")] raises when
    the file is not there; the lock is blocking and released on every
    exit. *)
Definition lock_file : Py.M world string :=
  fun w => match hostsfile w with
           | Some content => (Ok content, w)
           | None => (Raise OSError, w)
           end.

(** [f.seek(0); f.truncate(); f.write(text)] *)
Definition write_file (text : string) : Py.M world unit :=
  Py.modify (fun w => {| reg := reg w;
                         hostsfile := Some text;
                         effects := effects w ++ [Wrote text] |}).

(** [self.onupdate()] *)
Definition call_onupdate (cmd : string) : Py.M world unit :=
  Py.modify (fun w => {| reg := reg w;
                         hostsfile := hostsfile w;
                         effects := effects w ++ [Ran cmd] |}).

Record event : Type :=
  { ev_type : string;     (* event['Type'] *)
    ev_action : string;   (* event['Action'] *)
    ev_id : string }.     (* event['id'] *)

Section Reconciler.
Local Open Scope py_scope.
Variable cfg : config.

Definition update_hosts : Py.M world unit :=
  content <- lock_file ;;
  lines <- Py.of_outcome (read_lines content) ;;
  lines <- remove_section lines ;;
  w <- Py.get ;;
  let new_hostsfile := lines ++ new_section (domain cfg) (byname (reg w)) in
  write_file (join new_hostsfile) ;;
  match onupdate cfg with
  | Some cmd => call_onupdate cmd
  | None => Py.ret tt
  end.

Definition handle_start (ev : event) (o : inspected) : Py.M world unit :=
  in_registry (register o) ;;
  update_hosts.

Definition handle_die (ev : event) (o : inspected) : Py.M world unit :=
  in_registry (unregister o) ;;
  update_hosts.

(** [getattr(self, 'handle_%s' % event['Action'], None)]: the class has
    the two methods [handle_start] and [handle_die]. *)
Definition handler_for (action : string)
  : option (event -> inspected -> Py.M world unit) :=
  if String.eqb action "start" then Some handle_start
  else if String.eqb action "die" then Some handle_die
  else None.

(** The body of the loop of [run] for one event; [answer] is what
    [self.client.containers.get(event['id'])] gives at that moment. *)
Definition process (ev : event) (answer : outcome container)
  : Py.M world unit :=
  if negb (String.eqb (ev_type ev) "container") then Py.ret tt
  else
    o <- Py.try_except
           (c <- Py.of_outcome answer ;; Py.ret (Container c))
           is_NotFound
           (Py.ret EmptyDict) ;;
    match handler_for (ev_action ev) with
    | Some handler => handler ev o
    | None => Py.ret tt
    end.

(** The loop over a finite prefix of the event stream: an exception in
    the body leaves the loop, the events after it are not processed. *)
Fixpoint event_loop (evs : list (event * outcome container))
  : Py.M world unit :=
  match evs with
  | [] => Py.ret tt
  | (ev, answer) :: rest => process ev answer ;; event_loop rest
  end.

Fixpoint register_all (cs : list container) : Py.M world unit :=
  match cs with
  | [] => Py.ret tt
  | c :: rest => in_registry (register (Container c)) ;; register_all rest
  end.

(** [scan]; [running] is [self.client.containers.list()]. *)
Definition scan (running : list container) : Py.M world unit :=
  register_all running ;;
  update_hosts.

Definition run (running : list container)
           (evs : list (event * outcome container)) : Py.M world unit :=
  scan running ;;
  event_loop evs.

End Reconciler.

(** * Predicates of the specification *)

(** The name under which a container is looked up and stored. *)
Definition derived_name (c : container) : string := strip_slash (name c).

(** The state a computation leaves and how it ended. *)
Definition state_of {S A} (x : outcome A * S) : S := snd x.
Definition outcome_of {S A} (x : outcome A * S) : outcome A := fst x.

(** A container without an addressed network: the attachment map is
    missing, or empty, or every address in it is the empty string. *)
Definition unaddressed (c : container) : Prop :=
  match Networks (NetworkSettings c) with
  | None => True
  | Some nws => forall nwname nw, In (nwname, nw) nws -> IPAddress nw = ""
  end.

(** A record with at least one network, each with a non-empty address. *)
Definition addressed (h : host) : Prop :=
  networks h <> [] /\
  forall nwname address, In (nwname, address) (networks h) -> address <> "".

(** The record is found in one of the two dictionaries. *)
Definition stored (h : host) (r : registry) : Prop :=
  exists key,
    Dict.lookup key (byid r) = Some h \/ Dict.lookup key (byname r) = Some h.

(** Every record of the registry has an address. *)
Definition all_addressed (r : registry) : Prop :=
  forall h, stored h r -> addressed h.

(** The record [register] builds for a container. *)
Definition host_of (c : container) (nws : Dict.t endpoint) : host :=
  {| host_name := derived_name c;
     host_id := id c;
     networks := collect_networks nws |}.

(** Sample containers used to exercise the statements. *)
Definition attached (n i : string) (nws : list (string * string))
  : container :=
  {| name := n;
     id := i;
     NetworkSettings :=
       {| Networks :=
            Some (map (fun p => (fst p, {| IPAddress := snd p |})) nws) |} |}.

Definition web : container := attached "/web" "c1" [("app", "10.0.0.2")].
Definition web_twin : container := attached "web" "c9" [("app", "10.0.0.9")].
Definition db : container := attached "db" "c2" [("app", "10.0.0.3")].
Definition hostmode : container := attached "proxy" "c3" [("host", "")].

(** ** Lock-step of the two dictionaries *)

(** Every record stored in [byid] is found in [byname] under its name, and
    every record stored in [byname] is found in [byid] under its id. *)
Definition lockstep (r : registry) : Prop :=
  (forall key h, Dict.lookup key (byid r) = Some h ->
                 Dict.lookup (host_name h) (byname r) = Some h) /\
  (forall key h, Dict.lookup key (byname r) = Some h ->
                 Dict.lookup (host_id h) (byid r) = Some h).

(** The keys agree with the records: [byid] is keyed by the id of the
    record, where that id goes by the name [naming] gives it, and [byname]
    by the name of the record. *)
Definition keyed (naming : string -> string) (r : registry) : Prop :=
  (forall key h, Dict.lookup key (byid r) = Some h ->
                 host_id h = key /\ host_name h = naming key) /\
  (forall key h, Dict.lookup key (byname r) = Some h -> host_name h = key).

(** The invariant of a registry whose containers keep their names. *)
Definition steady (naming : string -> string) (r : registry) : Prop :=
  keyed naming r /\ lockstep r.

(** The call presents its container under the name [naming] gives its id. *)
Definition presented (naming : string -> string) (x : op) : Prop :=
  match x with
  | Register (Container c) | Unregister (Container c) =>
      derived_name c = naming (id c)
  | _ => True
  end.

(** A container that was started as [web] (id [c1]) and has since been
    renamed: to [www], and to the name [db] once that name was free. *)
Definition web_renamed : container :=
  attached "www" "c1" [("app", "10.0.0.2")].
Definition web_renamed_db : container :=
  attached "db" "c1" [("app", "10.0.0.2")].

Definition web_host : host :=
  {| host_name := "web"; host_id := "c1";
     networks := [("app", "10.0.0.2")] |}.
Definition db_host : host :=
  {| host_name := "db"; host_id := "c2";
     networks := [("app", "10.0.0.3")] |}.

(** ** The render, as a function of the lines read *)

(** What the [try] block of [update_hosts] leaves of the lines. *)
Definition without_section (lines : list string) : list string :=
  match index _hostfile_start_marker lines,
        index _hostfile_end_marker lines with
  | Ok section_start, Ok section_end =>
      del_slice section_start (section_end + 1) lines
  | _, _ => lines
  end.

(** The lines a render reads from a content that can be decoded. *)
Definition lines_read (content : string) : list string :=
  match read_lines content with
  | Ok lines => lines
  | Raise _ => []
  end.

(** The text a render writes, from the content it reads. *)
Definition rendered (cfg : config) (r : registry) (content : string)
  : string :=
  join (without_section (lines_read content)
          ++ new_section (domain cfg) (byname r)).

(** The effects of one completed render. *)
Definition render_effects (cfg : config) (text : string) : list effect :=
  Wrote text :: match onupdate cfg with
                | Some cmd => [Ran cmd]
                | None => []
                end.

(** The markers do not delimit a section: one of them is missing, or the
    first end marker comes before the first start marker. *)
Definition malformed (lines : list string) : Prop :=
  ~ In _hostfile_start_marker lines \/
  ~ In _hostfile_end_marker lines \/
  exists i j, index _hostfile_start_marker lines = Ok i /\
              index _hostfile_end_marker lines = Ok j /\
              j < i.

(** The section round-trip in the words of the specification, at one
    file that can be decoded: when the lines hold both markers, they
    split around a range from a start marker through an end marker, the
    render writes the lines outside the range followed by the new
    section, and the lines before the range are the lines of the file
    with trailing whitespace removed. *)
Definition section_roundtrip_as_stated
           (cfg : config) (r : registry) (content : string) : Prop :=
  forall raw,
    readlines content = Ok raw ->
    let lines := map (fun l => encode (strip l)) raw in
    In _hostfile_start_marker lines ->
    In _hostfile_end_marker lines ->
    exists before mid after,
      lines = before ++ _hostfile_start_marker :: mid
                     ++ _hostfile_end_marker :: after /\
      rendered cfg r content
      = String.concat (String "010" "")
          (map (fun l => encode (rstrip l)) (firstn (List.length before) raw)
             ++ after ++ new_section (domain cfg) (byname r)).

(** Sample events and configurations. *)
Definition start_event (i : string) : event :=
  {| ev_type := "container"; ev_action := "start"; ev_id := i |}.
Definition die_event (i : string) : event :=
  {| ev_type := "container"; ev_action := "die"; ev_id := i |}.
Definition quiet : config := {| domain := "docker"; onupdate := None |}.
Definition reloading : config :=
  {| domain := "docker"; onupdate := Some "systemctl reload dnsmasq" |}.

(** Sample files, as bytes.  Line ends of three kinds, and whitespace
    beyond ASCII: U+00A0 and U+2003 in UTF-8. *)
Definition text_of (lines : list string) : string :=
  String.concat "" (map (fun l => (l ++ newline)%string) lines).

Definition CRLF : string := String "013" (String "010" "").
Definition CR_alone : string := String "013" "".
Definition NBSP : string := String "194" (String "160" "").
Definition EM_SPACE : string := String "226" (String "128" (String "131" "")).
Definition LATIN1_NBSP : string := String "160" "".

(** A file whose section was left open. *)
Definition open_section_file : string :=
  ("127.0.0.1 localhost  " ++ CRLF
   ++ NBSP ++ "# === start dnsthing ===" ++ CR_alone
   ++ "10.9.9.9 stale.app.docker")%string.

(** A file with a section in the middle. *)
Definition section_in_the_middle_file : string :=
  ("127.0.0.1 localhost" ++ CRLF
   ++ "# === start dnsthing ===" ++ CRLF
   ++ "10.9.9.9 stale.app.docker" ++ CRLF
   ++ "# === end dnsthing ===" ++ CRLF
   ++ EM_SPACE ++ "192.168.1.1 router" ++ NBSP ++ CRLF)%string.

(** A file with indented lines before its section. *)
Definition indented_section_file : string :=
  ("  10.0.0.1 gw" ++ CR_alone
   ++ NBSP ++ "fe80::1 gw6  " ++ CRLF
   ++ "# === start dnsthing ===" ++ newline
   ++ "10.9.9.9 stale.app.docker" ++ newline
   ++ "# === end dnsthing ===" ++ newline)%string.

(** A file in another encoding: U+00A0 as the single byte of Latin-1. *)
Definition latin1_file : string :=
  ("127.0.0.1" ++ LATIN1_NBSP ++ "localhost" ++ newline)%string.

(** An indented line before the section; the end marker before the
    start marker. *)
Definition indented_file : string :=
  text_of ["  10.0.0.1 gw";
           "# === start dnsthing ===";
           "10.9.9.9 stale.app.docker";
           "# === end dnsthing ==="].

Definition end_before_start_file : string :=
  text_of ["# === end dnsthing ===";
           "192.168.1.1 router";
           "# === start dnsthing ==="].

(** A registry holding [web], next to a file. *)
Definition web_world (content : string) : world :=
  {| reg := state_of (register (Container web) registry_init);
     hostsfile := Some content;
     effects := [] |}.

(** ** Further predicates on the registry *)

(** Each dictionary is keyed by the matching field of its records. *)
Definition well_keyed (r : registry) : Prop :=
  (forall key h, Dict.lookup key (byid r) = Some h -> host_id h = key) /\
  (forall key h, Dict.lookup key (byname r) = Some h -> host_name h = key).

(** Every record listed by [byname.items()] has an address. *)
Definition listed_addressed (r : registry) : Prop :=
  forall key h, In (key, h) (Dict.items (byname r)) -> addressed h.

(** The names of the sample containers, by id. *)
Definition sample_naming (i : string) : string :=
  if String.eqb i "c1" then "web"
  else if String.eqb i "c2" then "db"
  else "proxy".

(** ** The entry point *)

(** The namespace [parse_args] returns: [--verbose]/[--debug],
    [--domain], [--hostsfile], [--update-command]. *)
Module Args.
Record t : Type :=
  { loglevel : string;
    domain : string;
    hostsfile : string;
    update_command : option string }.
End Args.

Definition is_ConnectionError (e : exn) : bool :=
  match e with ConnectionError => true | _ => false end.

(** [registry_args]: [onupdate] is set when [args.update_command] is
    true as a condition, that is, given and not the empty string. *)
Definition registry_args (args : Args.t) : option string :=
  match Args.update_command args with
  | Some cmd => if String.eqb cmd "" then None else Some cmd
  | None => None
  end.

(** [hostRegistry(client, args.hostsfile, **registry_args)]: the call
    passes no [domain], which keeps its default ['docker']. *)
Definition main_registry (args : Args.t) : config :=
  {| domain := "docker"; onupdate := registry_args args |}.

(** [main], on the content [file] of the file at [args.hostsfile]: a
    fresh registry is run, and [ConnectionError] is caught and logged. *)
Definition main (args : Args.t) (running : list container)
           (evs : list (event * outcome container)) (file : option string)
  : outcome unit * world :=
  Py.try_except (run (main_registry args) running evs)
                is_ConnectionError
                (Py.ret tt)
                (world_init file).

(** ** Traces of renders *)

(** The effects of the render of a registry over a content. *)
Definition render_of (cfg : config) (p : registry * string) : list effect :=
  render_effects cfg (rendered cfg (fst p) (snd p)).

(** The file after a series of renders, each of a registry over the
    content it found. *)
Definition file_after (cfg : config) (ps : list (registry * string))
           (file : option string) : option string :=
  fold_left (fun _ p => Some (rendered cfg (fst p) (snd p))) ps file.

(** The calls of [scan] on the registry. *)
Definition registrations (cs : list container) : list op :=
  map (fun c => Register (Container c)) cs.

(** The effects of the world are those of a series of renders, and its
    file is what the last of them wrote, or [file] when there was none. *)
Definition traced (cfg : config) (file : option string) (w : world) : Prop :=
  exists ps,
    effects w = flat_map (render_of cfg) ps /\
    hostsfile w = file_after cfg ps file.

(** ** Predicates on text *)

(** A character the encoding accepts: a code point up to U+10FFFF that
    is not a surrogate. *)
Definition valid_char (c : N) : Prop :=
  (c < 0xD800 \/ (0xE000 <= c /\ c <= 0x10FFFF))%N.

(** No line end among the characters. *)
Definition no_line_end (t : text) : Prop :=
  Forall (fun c => c <> LF_char /\ c <> CR_char) t.

(** A line, as bytes, that a render reads back unchanged: the encoding
    of characters with nothing for [strip] to remove and no line end. *)
Definition clean (l : string) : Prop :=
  exists t,
    l = encode t /\ Forall valid_char t /\ strip t = t /\ no_line_end t.

(** A line as [cut_lines] cuts it. *)
Definition is_line (l : text) : Prop :=
  exists body,
    Forall (fun c => c <> LF_char) body /\
    (l = body ++ [LF_char] \/ (l = body /\ body <> []))%list.

Fixpoint has_dot (s : string) : bool :=
  match s with
  | EmptyString => false
  | String a s' => Ascii.eqb a "."%char || has_dot s'
  end.

(** A file without markers and with an indented line. *)
Definition indented_plain_file : string :=
  ("  10.0.0.1 gw" ++ newline)%string.

(** The malformed-marker fallback in the words of the specification, at
    one world: when the start marker does not occur in the file, the
    render raises no error and what it writes is the prior content,
    undisturbed, with something appended. *)
Definition render_without_section_as_stated (cfg : config) (w : world)
  : Prop :=
  forall content,
    hostsfile w = Some content ->
    String.index 0 _hostfile_start_marker content = None ->
    outcome_of (update_hosts cfg w) = Ok tt /\
    exists rest,
      hostsfile (state_of (update_hosts cfg w))
      = Some (content ++ rest)%string.

(** * Facts *)

(** ** Dictionaries *)

Module DictFacts.
Import Dict.

Section WithValue.
Context {V : Type}.
Implicit Types (d : Dict.t V) (k : string) (v : V).

Lemma mem_true k d : mem k d = true <-> exists v, lookup k d = Some v.
Proof.
  unfold mem. destruct (lookup k d) as [v|].
  - split; [eauto | reflexivity].
  - split; [discriminate | intros [v H]; discriminate].
Qed.

Lemma mem_false k d : mem k d = false <-> lookup k d = None.
Proof.
  unfold mem. destruct (lookup k d); split; congruence.
Qed.

Lemma lookup_set_eq k v d : lookup k (set k v d) = Some v.
Proof.
  induction d as [|[k' v'] d IH]; simpl.
  - now rewrite String.eqb_refl.
  - destruct (String.eqb k k') eqn:E; simpl; rewrite E; auto.
Qed.

Lemma lookup_set_ne k k' v d :
  k <> k' -> lookup k' (set k v d) = lookup k' d.
Proof.
  intros Hne. induction d as [|[k0 v0] d IH]; simpl.
  - destruct (String.eqb k' k) eqn:E; auto.
    apply String.eqb_eq in E. congruence.
  - destruct (String.eqb k k0) eqn:E; simpl.
    + apply String.eqb_eq in E. subst k0.
      destruct (String.eqb k' k) eqn:E'; auto.
      apply String.eqb_eq in E'. congruence.
    + now rewrite IH.
Qed.

Lemma lookup_remove_eq k d : lookup k (remove k d) = None.
Proof.
  induction d as [|[k' v'] d IH]; simpl; auto.
  destruct (String.eqb k k') eqn:E; simpl; auto. now rewrite E.
Qed.

Lemma lookup_remove_ne k k' d :
  k <> k' -> lookup k' (remove k d) = lookup k' d.
Proof.
  intros Hne. induction d as [|[k0 v0] d IH]; simpl; auto.
  destruct (String.eqb k k0) eqn:E; simpl.
  - apply String.eqb_eq in E. subst k0.
    destruct (String.eqb k' k) eqn:E'; auto.
    apply String.eqb_eq in E'. congruence.
  - now rewrite IH.
Qed.

Lemma lookup_set_inv k k' v v' d :
  lookup k' (set k v d) = Some v' ->
  (k' = k /\ v' = v) \/ lookup k' d = Some v'.
Proof.
  destruct (string_dec k k') as [->|Hne].
  - rewrite lookup_set_eq. intros [= <-]. now left.
  - rewrite lookup_set_ne by assumption. now right.
Qed.

Lemma lookup_remove_inv k k' v' d :
  lookup k' (remove k d) = Some v' -> k' <> k /\ lookup k' d = Some v'.
Proof.
  destruct (string_dec k k') as [->|Hne].
  - now rewrite lookup_remove_eq.
  - rewrite lookup_remove_ne by assumption. auto.
Qed.

Lemma in_set_inv k k' v v' d :
  In (k', v') (set k v d) -> (k' = k /\ v' = v) \/ In (k', v') d.
Proof.
  induction d as [|[k0 v0] d IH]; simpl.
  - intros [[= <- <-]|[]]. now left.
  - destruct (String.eqb k k0) eqn:E; simpl.
    + apply String.eqb_eq in E. subst k0.
      intros [[= <- <-]|H]; auto.
    + intros [H|H]; auto. destruct (IH H); auto.
Qed.

Lemma set_not_empty k v d : truthy (set k v d) = true.
Proof.
  destruct d as [|[k' v'] d]; simpl; auto.
  now destruct (String.eqb k k').
Qed.

Lemma del_present k d v :
  lookup k d = Some v -> del k d = Ok (remove k d).
Proof.
  intros H. unfold del, mem. now rewrite H.
Qed.

Lemma del_absent k d : lookup k d = None -> del k d = Raise KeyError.
Proof.
  intros H. unfold del, mem. now rewrite H.
Qed.

End WithValue.
End DictFacts.

(** ** The two registry operations, case by case *)

Section RegistryFacts.
Import Dict DictFacts.

Lemma register_duplicate c r :
  mem (derived_name c) (byname r) = true ->
  register (Container c) r = (Ok tt, r).
Proof.
  intros H. unfold register, Py.bind, getattr, Py.ret, Py.get.
  fold (derived_name c). now rewrite H.
Qed.

Lemma register_no_networks_key c r :
  Networks (NetworkSettings c) = None ->
  register (Container c) r = (Ok tt, r).
Proof.
  intros H. unfold register, Py.bind, getattr, Py.ret, Py.get.
  fold (derived_name c). rewrite H.
  now destruct (mem (derived_name c) (byname r)).
Qed.

Lemma register_unconnected c nws r :
  Networks (NetworkSettings c) = Some nws ->
  truthy (collect_networks nws) = false ->
  register (Container c) r = (Ok tt, r).
Proof.
  intros H Hempty. unfold register, Py.bind, getattr, Py.ret, Py.get.
  fold (derived_name c). rewrite H. simpl. rewrite Hempty.
  now destruct (mem (derived_name c) (byname r)).
Qed.

Lemma register_fresh c nws r :
  mem (derived_name c) (byname r) = false ->
  Networks (NetworkSettings c) = Some nws ->
  truthy (collect_networks nws) = true ->
  register (Container c) r =
  (Ok tt, {| byname := set (derived_name c) (host_of c nws) (byname r);
             byid := set (id c) (host_of c nws) (byid r) |}).
Proof.
  intros Hfree H Hsome. unfold register, Py.bind, getattr, Py.ret, Py.get.
  fold (derived_name c). rewrite Hfree, H. simpl. rewrite Hsome.
  reflexivity.
Qed.

Lemma register_vanished r :
  register EmptyDict r = (Raise AttributeError, r).
Proof. reflexivity. Qed.

(** [register] on a container never raises, and either leaves the
    registry as it is or enters the record of the container. *)
Lemma register_cases c r :
  register (Container c) r = (Ok tt, r) \/
  exists nws,
    mem (derived_name c) (byname r) = false /\
    Networks (NetworkSettings c) = Some nws /\
    truthy (collect_networks nws) = true /\
    register (Container c) r =
    (Ok tt, {| byname := set (derived_name c) (host_of c nws) (byname r);
               byid := set (id c) (host_of c nws) (byid r) |}).
Proof.
  destruct (mem (derived_name c) (byname r)) eqn:Hm.
  - left. now apply register_duplicate.
  - destruct (Networks (NetworkSettings c)) as [nws|] eqn:Hn.
    + destruct (truthy (collect_networks nws)) eqn:Ht.
      * right. exists nws. repeat split; auto.
        now apply register_fresh.
      * left. eapply register_unconnected; eauto.
    + left. now apply register_no_networks_key.
Qed.

Lemma unregister_absent c r :
  mem (id c) (byid r) = false ->
  unregister (Container c) r = (Ok tt, r).
Proof.
  intros H. unfold unregister, Py.bind, getattr, Py.ret, Py.get.
  now rewrite H.
Qed.

Lemma unregister_present c r :
  mem (id c) (byid r) = true ->
  mem (derived_name c) (byname r) = true ->
  unregister (Container c) r =
  (Ok tt, {| byname := remove (derived_name c) (byname r);
             byid := remove (id c) (byid r) |}).
Proof.
  intros Hi Hn. unfold unregister, Py.bind, getattr, Py.ret, Py.get.
  rewrite Hi. unfold del_byid, del_byname, del. rewrite Hi. simpl.
  fold (derived_name c). now rewrite Hn.
Qed.

Lemma unregister_renamed c r :
  mem (id c) (byid r) = true ->
  mem (derived_name c) (byname r) = false ->
  unregister (Container c) r =
  (Raise KeyError, {| byname := byname r;
                      byid := remove (id c) (byid r) |}).
Proof.
  intros Hi Hn. unfold unregister, Py.bind, getattr, Py.ret, Py.get.
  rewrite Hi. unfold del_byid, del_byname, del. rewrite Hi. simpl.
  fold (derived_name c). now rewrite Hn.
Qed.

(** X2. Unregister completeness: with the lock-step in place and the
    container still under its recorded name, [unregister] of a present
    id returns normally and neither the id nor the name is found
    afterwards. *)
Lemma unregister_removes_record naming c r :
  steady naming r ->
  derived_name c = naming (id c) ->
  mem (id c) (byid r) = true ->
  outcome_of (unregister (Container c) r) = Ok tt /\
  lookup (id c) (byid (state_of (unregister (Container c) r))) = None /\
  lookup (derived_name c)
         (byname (state_of (unregister (Container c) r))) = None.
Proof.
  intros [[K1 _] [L1 _]] Hc Hi.
  pose proof Hi as Hi'. apply mem_true in Hi' as [h0 Hh0].
  destruct (K1 _ _ Hh0) as [_ Hname0].
  pose proof (L1 _ _ Hh0) as Hn0. rewrite Hname0, <- Hc in Hn0.
  rewrite unregister_present; [|assumption|apply mem_true; eauto].
  cbn. split; [reflexivity|]. split; apply lookup_remove_eq.
Qed.

Lemma unregister_vanished r :
  unregister EmptyDict r = (Raise AttributeError, r).
Proof. reflexivity. Qed.

End RegistryFacts.

(** ** Names are taken once *)

Section UniqueName.
Import Dict DictFacts.

(** C6. Unique-name exclusion: when two containers have the same derived
    name and the first one is registered (the registry holds, under that
    name, a record carrying the first container's id), registering the
    second one returns normally and leaves [byname] and [byid] as they
    were; [byname] at that name still holds the first record. *)
Theorem register_second_same_name
        (c1 c2 : container) (r : registry) (first : host) :
  derived_name c2 = derived_name c1 ->
  lookup (derived_name c1) (byname r) = Some first ->
  host_id first = id c1 ->
  register (Container c2) r = (Ok tt, r) /\
  byname (state_of (register (Container c2) r)) = byname r /\
  byid (state_of (register (Container c2) r)) = byid r /\
  lookup (derived_name c1) (byname (state_of (register (Container c2) r)))
  = Some first.
Proof.
  intros Hname Hfirst _.
  assert (Hreg : register (Container c2) r = (Ok tt, r)).
  { apply register_duplicate. rewrite Hname.
    apply mem_true. eauto. }
  rewrite Hreg. simpl. auto.
Qed.

Lemma register_second_same_name_witness :
  let r := state_of (register (Container web) registry_init) in
  register (Container web_twin) r = (Ok tt, r) /\
  lookup "web" (byname (state_of (register (Container web_twin) r)))
  = Some (host_of web [("app", {| IPAddress := "10.0.0.2" |})]).
Proof.
  intros r.
  destruct (register_second_same_name web web_twin r
              (host_of web [("app", {| IPAddress := "10.0.0.2" |})]))
    as (H1 & _ & _ & H4); try reflexivity.
  split; [exact H1 | exact H4].
Defined.

End UniqueName.

(** ** Registering twice *)

Section Idempotence.
Import Dict DictFacts.

(** C8. Idempotent registration: registering the same container a second
    time, right after the first, leaves [byid] and [byname] equal to
    what they were after the first registration. *)
Theorem register_twice (o : inspected) (r : registry) :
  let r1 := state_of (register o r) in
  let r2 := state_of (register o r1) in
  byid r2 = byid r1 /\ byname r2 = byname r1.
Proof.
  cbv zeta. unfold state_of. destruct o as [c|].
  2: { now rewrite !register_vanished. }
  destruct (register_cases c r) as [H|(nws & Hfree & Hn & Ht & H)].
  - rewrite H. cbn [snd]. now rewrite H.
  - rewrite H. cbn [snd].
    rewrite register_duplicate; [now cbn [snd]|].
    apply mem_true. eexists. cbn [byname]. apply lookup_set_eq.
Qed.

End Idempotence.

(** ** Containers without an address stay out *)

Section NoNetwork.
Import Dict DictFacts.

Lemma fold_enter_addresses (nws : Dict.t endpoint) :
  forall acc : Dict.t string,
    (forall k a, In (k, a) acc -> a <> "") ->
    forall k a, In (k, a) (fold_left enter_network nws acc) -> a <> "".
Proof.
  induction nws as [|[nwname nw] nws IH]; intros acc Hacc k a; simpl.
  - apply Hacc.
  - apply IH. intros k' a' Hin.
    destruct (String.eqb (IPAddress nw) "") eqn:E.
    + eapply Hacc; eauto.
    + apply in_set_inv in Hin. destruct Hin as [[_ ->]|Hin].
      * now apply String.eqb_neq.
      * eapply Hacc; eauto.
Qed.

Lemma fold_enter_unaddressed (nws : Dict.t endpoint) :
  (forall k e, In (k, e) nws -> IPAddress e = "") ->
  forall acc, fold_left enter_network nws acc = acc.
Proof.
  induction nws as [|[nwname nw] nws IH]; intros Hall acc; simpl; auto.
  rewrite (Hall nwname nw) by (left; reflexivity). simpl.
  apply IH. intros k e Hin. apply (Hall k e). now right.
Qed.

Lemma collect_networks_addresses nws k a :
  In (k, a) (collect_networks nws) -> a <> "".
Proof.
  unfold collect_networks, items.
  apply fold_enter_addresses. intros ? ? [].
Qed.

Lemma host_of_addressed c nws :
  truthy (collect_networks nws) = true -> addressed (host_of c nws).
Proof.
  intros Ht. split; simpl.
  - intros E. rewrite E in Ht. discriminate.
  - intros k a. apply collect_networks_addresses.
Qed.

Lemma register_all_addressed o r :
  all_addressed r -> all_addressed (state_of (register o r)).
Proof.
  intros Hr. destruct o as [c|]; [|exact Hr].
  destruct (register_cases c r) as [H|(nws & _ & _ & Ht & H)];
    rewrite H; [exact Hr|].
  intros h [key [Hl|Hl]]; cbn in Hl;
    apply lookup_set_inv in Hl; destruct Hl as [[_ ->]|Hl];
    try (now apply host_of_addressed);
    apply Hr; exists key; auto.
Qed.

Lemma unregister_shrinks o r :
  let r' := state_of (unregister o r) in
  (forall k h, lookup k (byid r') = Some h -> lookup k (byid r) = Some h) /\
  (forall k h, lookup k (byname r') = Some h ->
               lookup k (byname r) = Some h).
Proof.
  cbv zeta. destruct o as [c|]; [|now rewrite unregister_vanished].
  destruct (mem (id c) (byid r)) eqn:Hi.
  - destruct (mem (derived_name c) (byname r)) eqn:Hn.
    + rewrite unregister_present by assumption. cbn.
      split; intros k h Hl; now apply lookup_remove_inv in Hl.
    + rewrite unregister_renamed by assumption. cbn.
      split; intros k h Hl; auto. now apply lookup_remove_inv in Hl.
  - rewrite unregister_absent by assumption. cbn. auto.
Qed.

Lemma unregister_all_addressed o r :
  all_addressed r -> all_addressed (state_of (unregister o r)).
Proof.
  intros Hr h [key Hl]. apply Hr. exists key.
  destruct (unregister_shrinks o r) as [Hid Hname].
  destruct Hl as [Hl|Hl]; [left; now apply Hid | right; now apply Hname].
Qed.

Lemma run_ops_all_addressed ops :
  forall r, all_addressed r -> all_addressed (state_of (run_ops ops r)).
Proof.
  induction ops as [|x ops IH]; intros r Hr; [exact Hr|].
  assert (Hx : all_addressed (state_of (run_op x r))).
  { destruct x; [now apply register_all_addressed
                |now apply unregister_all_addressed]. }
  simpl. unfold Py.bind.
  destruct (run_op x r) as [[[]|e] r'] eqn:E; cbn in Hx.
  - now apply IH.
  - exact Hx.
Qed.

(** C7. No-network exclusion: for a container whose attachment map is
    missing, empty, or holds only empty-string addresses, [register]
    returns normally and leaves [byid] and [byname] unchanged; and after
    any sequence of register and unregister calls on a fresh registry,
    every record found in [byid] or [byname] has at least one network
    and only non-empty addresses. *)
Theorem no_network_exclusion (c : container) (r : registry) :
  unaddressed c ->
  register (Container c) r = (Ok tt, r) /\
  forall (ops : list op) (h : host),
    stored h (state_of (run_ops ops registry_init)) -> addressed h.
Proof.
  intros Hc. split.
  - unfold unaddressed in Hc.
    destruct (Networks (NetworkSettings c)) as [nws|] eqn:Hn.
    + apply (register_unconnected c nws r Hn).
      unfold collect_networks, items.
      now rewrite fold_enter_unaddressed.
    + now apply register_no_networks_key.
  - intros ops. apply run_ops_all_addressed.
    intros h [key [Hl|Hl]]; discriminate.
Qed.

Lemma no_network_exclusion_witness :
  unaddressed hostmode /\
  register (Container hostmode) (state_of (register (Container web)
                                                    registry_init))
  = (Ok tt, state_of (register (Container web) registry_init)).
Proof.
  assert (H : unaddressed hostmode).
  { intros nwname nw [[= <- <-]|[]]. reflexivity. }
  split; [exact H|].
  exact (proj1 (no_network_exclusion hostmode _ H)).
Defined.

End NoNetwork.

(** ** Lock-step of [byid] and [byname] *)

Section LockStep.
Import Dict DictFacts.
Variable naming : string -> string.

Lemma steady_init : steady naming registry_init.
Proof. split; split; intros key h H; discriminate. Qed.

Lemma register_steady c r :
  derived_name c = naming (id c) ->
  steady naming r -> steady naming (state_of (register (Container c) r)).
Proof.
  intros Hc Hr.
  destruct (register_cases c r) as [H|(nws & Hfree & _ & _ & H)];
    rewrite H; [exact Hr|]. clear H.
  destruct Hr as [[K1 K2] [L1 L2]].
  apply mem_false in Hfree. unfold state_of. cbn [snd].
  split; split; cbn [byid byname]; intros key h Hl;
    apply lookup_set_inv in Hl.
  - destruct Hl as [[-> ->]|Hl]; [now split | now apply (K1 key)].
  - destruct Hl as [[-> ->]|Hl]; [reflexivity | now apply K2].
  - destruct Hl as [[-> ->]|Hl]; [apply lookup_set_eq|].
    rewrite lookup_set_ne; [now apply (L1 key)|].
    intros E. apply L1 in Hl. congruence.
  - destruct Hl as [[-> ->]|Hl]; [apply lookup_set_eq|].
    rewrite lookup_set_ne; [now apply (L2 key)|].
    intros E. pose proof (K2 _ _ Hl) as Hk.
    destruct (K1 _ _ (L2 _ _ Hl)) as [_ Hn].
    rewrite <- E, <- Hc, Hk in Hn. congruence.
Qed.

Lemma unregister_steady c r :
  derived_name c = naming (id c) ->
  steady naming r ->
  outcome_of (unregister (Container c) r) = Ok tt /\
  steady naming (state_of (unregister (Container c) r)).
Proof.
  intros Hc Hr.
  destruct (mem (id c) (byid r)) eqn:Hi.
  2: { rewrite unregister_absent by assumption. now split. }
  destruct Hr as [[K1 K2] [L1 L2]].
  pose proof Hi as Hi'. apply mem_true in Hi' as [h0 Hh0].
  destruct (K1 _ _ Hh0) as [Hid0 Hname0].
  pose proof (L1 _ _ Hh0) as Hn0. rewrite Hname0, <- Hc in Hn0.
  rewrite unregister_present; [|assumption|apply mem_true; eauto].
  split; [reflexivity|]. unfold state_of. cbn [snd].
  split; split; cbn [byid byname]; intros key h Hl;
    apply lookup_remove_inv in Hl; destruct Hl as [Hne Hl].
  - now apply (K1 key).
  - now apply K2.
  - rewrite lookup_remove_ne; [now apply (L1 key)|].
    intros E. pose proof (L1 _ _ Hl) as Hl'. rewrite <- E, Hn0 in Hl'.
    injection Hl' as <-. destruct (K1 _ _ Hl) as [Hk _]. congruence.
  - rewrite lookup_remove_ne; [now apply (L2 key)|].
    intros E. pose proof (L2 _ _ Hl) as Hl'. rewrite <- E, Hh0 in Hl'.
    injection Hl' as <-. pose proof (K2 _ _ Hl). congruence.
Qed.

(** As long as every call presents an id under one and the same name,
    the two dictionaries stay in lock-step, whatever the sequence. *)
Lemma run_ops_steady ops :
  Forall (presented naming) ops ->
  forall r, steady naming r -> steady naming (state_of (run_ops ops r)).
Proof.
  induction 1 as [|x ops Hx _ IH]; intros r Hr; [exact Hr|].
  assert (Hs : steady naming (state_of (run_op x r))).
  { destruct x as [[c|]|[c|]]; try exact Hr.
    - now apply register_steady.
    - now apply unregister_steady. }
  simpl. unfold Py.bind.
  destruct (run_op x r) as [[[]|e] r'] eqn:E; cbn in Hs.
  - now apply IH.
  - exact Hs.
Qed.

(** X1. Lock-step without renames: when every call of a sequence
    presents its container under the one name that goes with its id,
    then after the sequence, run on a fresh registry, every record of
    [byid] is found in [byname] under its name and every record of
    [byname] is found in [byid] under its id. *)
Lemma lockstep_without_rename ops :
  Forall (presented naming) ops ->
  lockstep (state_of (run_ops ops registry_init)).
Proof.
  intros H. apply (run_ops_steady ops H registry_init steady_init).
Qed.

End LockStep.

(** ** Where the lock-step is lost: a renamed container *)

Section Renamed.
Import Dict.

(** C2. The lock-step of [byid] and [byname], on the calls a rename
    leads to: [web] (id [c1]) and [db] (id [c2]) are registered, [db]
    is renamed away and [c1] renamed to [db], then [c1] dies.  The
    calls return normally; [unregister] has deleted [c1] from [byid]
    and the record of [c2] from [byname], so [byid] holds a record
    that [byname] lacks and [byname] one that [byid] lacks. *)
Theorem lockstep_lost_after_rename :
  let ops := [Register (Container web);
              Register (Container db);
              Unregister (Container web_renamed_db)] in
  run_ops ops registry_init
  = (Ok tt, {| byname := [("web", web_host)];
               byid := [("c2", db_host)] |}) /\
  ~ lockstep (state_of (run_ops ops registry_init)).
Proof.
  split; [reflexivity|].
  intros [L1 _]. specialize (L1 "c2" db_host eq_refl). discriminate.
Qed.

(** C4. [unregister] of a container whose id is present, after the
    container was renamed from [web] to [www]: the id goes from
    [byid], then [del self.byname[name]] raises [KeyError] on the new
    name, and the name of the record, [web], stays in [byname]. *)
Theorem unregister_after_rename_keeps_name :
  let r := state_of (register (Container web) registry_init) in
  lookup (id web_renamed) (byid r) = Some web_host /\
  unregister (Container web_renamed) r
  = (Raise KeyError, {| byname := [("web", web_host)]; byid := [] |}) /\
  mem (host_name web_host)
      (byname (state_of (unregister (Container web_renamed) r))) = true.
Proof. repeat split. Qed.

End Renamed.

(** ** One render *)

Section RenderOnce.
Variable cfg : config.

Lemma index_raises x l e : index x l = Raise e -> e = ValueError.
Proof.
  revert e. induction l as [|y l IH]; simpl; intros e.
  - now intros [= <-].
  - destruct (String.eqb y x); [discriminate|].
    destruct (index x l) as [n|e']; [discriminate|].
    intros [= <-]. now apply IH.
Qed.

(** The [try] block never lets an exception out. *)
Lemma remove_section_total {S} (lines : list string) (s : S) :
  remove_section lines s = (Ok (without_section lines), s).
Proof.
  unfold remove_section, without_section, Py.try_except, Py.bind,
    Py.of_outcome, Py.ret.
  destruct (index _hostfile_start_marker lines) as [i|e] eqn:Hi.
  - destruct (index _hostfile_end_marker lines) as [j|e] eqn:Hj.
    + reflexivity.
    + now rewrite (index_raises _ _ _ Hj).
  - now rewrite (index_raises _ _ _ Hi).
Qed.

Lemma read_lines_raises content e :
  read_lines content = Raise e -> e = UnicodeDecodeError.
Proof.
  unfold read_lines, readlines.
  assert (H : forall s e', decode s = Raise e' -> e' = UnicodeDecodeError).
  { assert (Hc : forall c o e', cons_ok c o = Raise e' -> o = Raise e').
    { intros c [t|e0] e'; simpl; congruence. }
    assert (Hn : forall n s, String.length s <= n -> forall e',
                   decode s = Raise e' -> e' = UnicodeDecodeError).
    { induction n as [|n IH]; intros s Hlen e'.
      - destruct s; [discriminate|simpl in Hlen; lia].
      - destruct s as [|a0 s1]; [discriminate|]. simpl in Hlen.
        cbn [decode].
        repeat match goal with
               | |- context [if ?b then _ else _] => destruct b
               | |- context [match ?x with _ => _ end] =>
                   is_var x; destruct x; cbn [String.length] in Hlen
               | |- context [match continuation ?x with _ => _ end] =>
                   destruct (continuation x)
               | |- Raise _ = Raise _ -> _ => congruence
               | |- cons_ok _ _ = Raise _ -> _ =>
                   let H := fresh in
                   intros H; apply Hc in H; apply IH in H; [exact H|lia]
               end. }
    intros s0 e0. apply (Hn (String.length s0)). lia. }
  destruct (decode content) as [t|e0] eqn:E; [discriminate|].
  intros [= <-]. now apply (H content).
Qed.

Lemma rendered_read r content lines :
  read_lines content = Ok lines ->
  rendered cfg r content
  = join (without_section lines ++ new_section (domain cfg) (byname r)).
Proof. intros H. unfold rendered, lines_read. now rewrite H. Qed.

Lemma update_hosts_present w content lines :
  hostsfile w = Some content ->
  read_lines content = Ok lines ->
  update_hosts cfg w
  = (Ok tt,
     {| reg := reg w;
        hostsfile := Some (rendered cfg (reg w) content);
        effects := effects w
                     ++ render_effects cfg (rendered cfg (reg w) content) |}).
Proof.
  intros H Hread. unfold update_hosts, Py.bind, lock_file. rewrite H.
  unfold Py.of_outcome. rewrite Hread.
  rewrite remove_section_total. unfold Py.get, write_file, Py.modify.
  rewrite (rendered_read (reg w) content lines Hread).
  unfold render_effects.
  destruct (onupdate cfg) as [cmd|].
  - unfold call_onupdate, Py.modify. cbn. now rewrite <- app_assoc.
  - reflexivity.
Qed.

Lemma update_hosts_undecodable w content e :
  hostsfile w = Some content ->
  read_lines content = Raise e ->
  update_hosts cfg w = (Raise e, w).
Proof.
  intros H Hread. unfold update_hosts, Py.bind, lock_file. rewrite H.
  unfold Py.of_outcome. now rewrite Hread.
Qed.

Lemma update_hosts_missing w :
  hostsfile w = None -> update_hosts cfg w = (Raise OSError, w).
Proof.
  intros H. unfold update_hosts, Py.bind, lock_file. now rewrite H.
Qed.

Lemma register_returns c r : outcome_of (register (Container c) r) = Ok tt.
Proof.
  destruct (register_cases c r) as [H|(nws & _ & _ & _ & H)];
    now rewrite H.
Qed.

(** X16. A [start] event of an inspected container, with a hosts file
    that opens and decodes: the handler returns normally; the
    registration, no-op or not, is followed by one render, which writes
    the lines read without their old section and then the section of
    the registry the registration left, and, after it, by one call of
    the post-update command when there is one. *)
Lemma handle_start_renders_once ev c w content lines :
  hostsfile w = Some content ->
  read_lines content = Ok lines ->
  let r' := state_of (register (Container c) (reg w)) in
  let text := join (without_section lines
                      ++ new_section (domain cfg) (byname r')) in
  handle_start cfg ev (Container c) w
  = (Ok tt,
     {| reg := r';
        hostsfile := Some text;
        effects := effects w ++ render_effects cfg text |}).
Proof.
  intros H Hread r' text. unfold handle_start, Py.bind, in_registry, Py.zoom.
  pose proof (register_returns c (reg w)) as Hret. subst text r'.
  destruct (register (Container c) (reg w)) as [o r'].
  cbn in Hret. subst o.
  rewrite (update_hosts_present _ content lines) by assumption.
  cbn [reg effects state_of snd].
  now rewrite (rendered_read r' content lines Hread).
Qed.

(** X17. A [start] event of an inspected container when the hosts file
    cannot be opened: the render raises, nothing is written and the
    post-update command is not called, but the registration done
    before the render stays in the registry. *)
Lemma handle_start_render_fails ev c w :
  hostsfile w = None ->
  handle_start cfg ev (Container c) w
  = (Raise OSError,
     {| reg := state_of (register (Container c) (reg w));
        hostsfile := None;
        effects := effects w |}).
Proof.
  intros H. unfold handle_start, Py.bind, in_registry, Py.zoom.
  pose proof (register_returns c (reg w)) as Hret.
  destruct (register (Container c) (reg w)) as [o r'].
  cbn in Hret. subst o. rewrite update_hosts_missing by exact H.
  now rewrite H.
Qed.

(** X18. A [die] event whose [unregister] returns, with a hosts file
    that opens and decodes: the handler returns normally, with one
    render, which writes the lines read without their old section and
    then the section of the registry [unregister] left, also when the
    id was not registered, and after it one call of the post-update
    command when there is one. *)
Lemma handle_die_renders_once ev o w content lines :
  hostsfile w = Some content ->
  read_lines content = Ok lines ->
  outcome_of (unregister o (reg w)) = Ok tt ->
  let r' := state_of (unregister o (reg w)) in
  let text := join (without_section lines
                      ++ new_section (domain cfg) (byname r')) in
  handle_die cfg ev o w
  = (Ok tt,
     {| reg := r';
        hostsfile := Some text;
        effects := effects w ++ render_effects cfg text |}).
Proof.
  intros H Hread Hret r' text.
  unfold handle_die, Py.bind, in_registry, Py.zoom.
  subst text r'. destruct (unregister o (reg w)) as [out r'].
  cbn in Hret. subst out.
  rewrite (update_hosts_present _ content lines) by assumption.
  cbn [reg effects state_of snd].
  now rewrite (rendered_read r' content lines Hread).
Qed.

(** The substitute [{}] has no attribute [name]: the handler raises
    before it reaches the render, and the loop is left. *)
Lemma process_vanished ev w :
  ev_type ev = "container" ->
  ev_action ev = "start" \/ ev_action ev = "die" ->
  process cfg ev (Raise NotFound) w = (Raise AttributeError, w).
Proof.
  intros Ht Ha. unfold process. rewrite Ht. cbn.
  destruct w as [r f es].
  destruct Ha as [Ha|Ha]; rewrite Ha; reflexivity.
Qed.

Lemma event_loop_vanished ev rest w :
  ev_type ev = "container" ->
  ev_action ev = "start" \/ ev_action ev = "die" ->
  event_loop cfg ((ev, Raise NotFound) :: rest) w
  = (Raise AttributeError, w).
Proof.
  intros Ht Ha. simpl. unfold Py.bind.
  now rewrite process_vanished.
Qed.

End RenderOnce.

(** ** A container that is gone when its event is handled *)

Section Vanished.

(** C1. An event whose container cannot be inspected, on a registry
    that holds [web]: the [start] event of the vanished [c7] is handed
    to [handle_start] with [{}], [register] raises [AttributeError] on
    [container.name], the exception leaves the loop, and the [start]
    event of [db] that follows is never processed. *)
Theorem vanished_container_stops_the_loop :
  let w := state_of (scan quiet [web] (world_init (Some ""))) in
  process quiet (start_event "c7") (Raise NotFound) w
  = (Raise AttributeError, w) /\
  event_loop quiet [(start_event "c7", Raise NotFound);
                    (start_event "c2", Ok db)] w
  = (Raise AttributeError, w) /\
  Dict.mem "db" (byname (reg w)) = false /\
  outcome_of (event_loop quiet [(start_event "c2", Ok db)] w) = Ok tt.
Proof. repeat split. Qed.

(** C5. A handled event that triggers no render: [start] and [die]
    events of a vanished container are dispatched to their handlers,
    which raise in [register] and [unregister] before [update_hosts]
    is reached, so nothing is written and the post-update command is
    not run; so does the [die] event of a renamed container, once
    [byid] has lost its id.  The same [start] event of a container
    that is inspected, even one without a network, writes the file
    once and runs the command once. *)
Theorem handled_event_without_render :
  let w := state_of (scan reloading [web] (world_init (Some ""))) in
  process reloading (start_event "c7") (Raise NotFound) w
  = (Raise AttributeError, w) /\
  process reloading (die_event "c7") (Raise NotFound) w
  = (Raise AttributeError, w) /\
  outcome_of (process reloading (die_event "c1") (Ok web_renamed) w)
  = Raise KeyError /\
  effects (state_of (process reloading (die_event "c1")
                             (Ok web_renamed) w))
  = effects w /\
  effects (state_of (process reloading (start_event "c3")
                             (Ok hostmode) w))
  = effects w
      ++ render_effects reloading
           (rendered reloading (reg w)
                     (rendered reloading (reg w) "")).
Proof. repeat split. Qed.

End Vanished.

(** ** The section editor *)

Section SectionEditor.

Lemma index_absent x l : ~ In x l -> index x l = Raise ValueError.
Proof.
  induction l as [|y l IH]; simpl; intros Hn; [reflexivity|].
  destruct (String.eqb y x) eqn:E.
  - apply String.eqb_eq in E. exfalso. apply Hn. now left.
  - rewrite IH; [reflexivity|]. intros Hin. apply Hn. now right.
Qed.

Lemma index_past x before l :
  ~ In x before ->
  index x (before ++ l)
  = match index x l with
    | Ok n => Ok (List.length before + n)
    | Raise e => Raise e
    end.
Proof.
  induction before as [|y before IH]; simpl; intros Hn.
  - now destruct (index x l).
  - destruct (String.eqb y x) eqn:E.
    + apply String.eqb_eq in E. exfalso. apply Hn. now left.
    + rewrite IH by (intros Hin; apply Hn; now right).
      now destruct (index x l).
Qed.

Lemma index_here x rest : index x (x :: rest) = Ok 0.
Proof. simpl. now rewrite String.eqb_refl. Qed.

Lemma index_first x before rest :
  ~ In x before -> index x (before ++ x :: rest) = Ok (List.length before).
Proof.
  intros Hn. rewrite index_past by assumption. rewrite index_here.
  f_equal. lia.
Qed.

Lemma skipn_past {A} (l1 l2 : list A) n :
  skipn (List.length l1 + n) (l1 ++ l2) = skipn n l2.
Proof. induction l1; simpl; auto. Qed.

Lemma firstn_exact {A} (l1 l2 : list A) :
  firstn (List.length l1) (l1 ++ l2) = l1.
Proof. induction l1; simpl; congruence. Qed.

(** The slice deletion on a delimited section. *)
Lemma del_slice_middle {A} (before section after : list A) :
  del_slice (List.length before)
            (List.length before + List.length section)
            (before ++ section ++ after)
  = before ++ after.
Proof.
  unfold del_slice. rewrite firstn_exact. f_equal.
  replace (Nat.max (List.length before)
                   (List.length before + List.length section))
    with (List.length before + List.length section) by lia.
  rewrite skipn_past.
  replace (List.length section) with (List.length section + 0) by lia.
  now rewrite skipn_past.
Qed.

(** The slice deletion with its end not after its start. *)
Lemma del_slice_empty {A} (a b : nat) (l : list A) :
  b <= a -> del_slice a b l = l.
Proof.
  intros H. unfold del_slice.
  replace (Nat.max a b) with a by lia. apply firstn_skipn.
Qed.

Lemma without_section_delimited before mid after :
  ~ In _hostfile_start_marker before ->
  ~ In _hostfile_end_marker (before ++ mid) ->
  without_section
    (before ++ _hostfile_start_marker :: mid
            ++ _hostfile_end_marker :: after)
  = before ++ after.
Proof.
  intros Hs He. unfold without_section.
  rewrite index_first by assumption.
  assert (Hb : ~ In _hostfile_end_marker before)
    by (intros H; apply He, in_or_app; now left).
  assert (Hm : ~ In _hostfile_end_marker
                 (_hostfile_start_marker :: mid)).
  { intros [H|H]; [discriminate|]. apply He, in_or_app. now right. }
  rewrite index_past by exact Hb.
  change (_hostfile_start_marker :: mid ++ _hostfile_end_marker :: after)
    with ((_hostfile_start_marker :: mid)
            ++ _hostfile_end_marker :: after).
  rewrite index_first by exact Hm.
  replace (List.length before
           + List.length (_hostfile_start_marker :: mid) + 1)
    with (List.length before
          + List.length ((_hostfile_start_marker :: mid)
                           ++ [_hostfile_end_marker]))
    by (rewrite length_app; simpl; lia).
  replace ((_hostfile_start_marker :: mid)
             ++ _hostfile_end_marker :: after)
    with (((_hostfile_start_marker :: mid) ++ [_hostfile_end_marker])
            ++ after)
    by (now rewrite <- app_assoc).
  apply del_slice_middle.
Qed.

Lemma without_section_malformed lines :
  malformed lines -> without_section lines = lines.
Proof.
  unfold without_section.
  intros [Hs|[He|(i & j & Hi & Hj & Hlt)]].
  - now rewrite index_absent.
  - rewrite (index_absent _ _ He).
    now destruct (index _hostfile_start_marker lines).
  - rewrite Hi, Hj. apply del_slice_empty. lia.
Qed.

End SectionEditor.

(** ** Joining lines *)

Section Join.
Local Open Scope string_scope.

Lemma append_assoc (a b c : string) : (a ++ b) ++ c = a ++ (b ++ c).
Proof. induction a as [|x a IH]; simpl; congruence. Qed.

Lemma join_cons (x : string) (l : list string) :
  l <> [] -> join (x :: l) = x ++ newline ++ join l.
Proof. destruct l; [congruence | reflexivity]. Qed.

Lemma join_app (l1 l2 : list string) :
  l1 <> [] -> l2 <> [] ->
  join (l1 ++ l2)%list = join l1 ++ newline ++ join l2.
Proof.
  intros H1 H2. induction l1 as [|x l1 IH]; [congruence|].
  destruct l1 as [|y l1].
  - simpl app. now rewrite join_cons.
  - change (((x :: y :: l1) ++ l2)%list)
      with (x :: ((y :: l1) ++ l2)%list).
    rewrite join_cons by discriminate.
    rewrite IH by discriminate.
    rewrite (join_cons x (y :: l1)) by discriminate.
    now rewrite !append_assoc.
Qed.

(** A joined text with a last line [x] ends with that line, preceded
    by a line feed when it is not the only line. *)
Lemma join_last (l : list string) (x : string) :
  l <> [] -> join (l ++ [x])%list = join l ++ newline ++ x.
Proof. intros H. now rewrite join_app by (assumption || discriminate). Qed.

End Join.

(** ** What a render writes *)

Section Rendering.
Variable cfg : config.

Lemma index_split x l n :
  index x l = Ok n ->
  exists before rest,
    l = before ++ x :: rest /\ List.length before = n /\ ~ In x before.
Proof.
  revert n. induction l as [|y l IH]; simpl; intros n Hn; [discriminate|].
  destruct (String.eqb y x) eqn:E.
  - injection Hn as <-. apply String.eqb_eq in E. subst y.
    exists [], l. auto.
  - destruct (index x l) as [m|] eqn:Hm; [|discriminate].
    injection Hn as <-.
    destruct (IH m eq_refl) as (before & rest & -> & <- & Hnotin).
    exists (y :: before), rest. repeat split.
    intros [->|Hin]; [|now apply Hnotin].
    now rewrite String.eqb_refl in E.
Qed.

Lemma index_found x l : In x l -> exists n, index x l = Ok n.
Proof.
  intros Hin. destruct (index x l) as [n|e] eqn:E; [eauto|].
  exfalso. revert e E.
  induction l as [|y l IH]; simpl; intros e; [destruct Hin|].
  destruct (String.eqb y x) eqn:Eyx; [discriminate|].
  destruct Hin as [->|Hin]; [now rewrite String.eqb_refl in Eyx|].
  destruct (index x l) as [m|e'] eqn:Em; [discriminate|].
  intros _. exact (IH Hin e' eq_refl).
Qed.

(** Either the markers delimit a section, or they are malformed. *)
Lemma delimited_or_malformed lines :
  malformed lines \/
  exists before mid after,
    lines = before ++ _hostfile_start_marker :: mid
                   ++ _hostfile_end_marker :: after /\
    ~ In _hostfile_start_marker before /\
    ~ In _hostfile_end_marker (before ++ mid).
Proof.
  destruct (in_dec string_dec _hostfile_start_marker lines) as [Hs|Hs];
    [|left; now left].
  destruct (in_dec string_dec _hostfile_end_marker lines) as [He|He];
    [|left; right; now left].
  destruct (index_found _ _ Hs) as [i Hi].
  destruct (index_found _ _ He) as [j Hj].
  destruct (Nat.lt_ge_cases j i) as [Hlt|Hge].
  { left. right. right. exists i, j. auto. }
  right.
  destruct (index_split _ _ _ Hi) as (b1 & r1 & E1 & Hlen1 & Hn1).
  destruct (index_split _ _ _ Hj) as (b2 & r2 & E2 & Hlen2 & Hn2).
  rewrite E1 in E2.
  destruct (app_eq_app _ _ _ _ E2) as [l [[Hb Hr]|[Hb Hr]]].
  - assert (l = []) as ->.
    { destruct l; [reflexivity|]. subst b1. rewrite length_app in Hlen1.
      simpl in Hlen1. lia. }
    discriminate Hr.
  - destruct l as [|s mid]; [discriminate Hr|].
    injection Hr as <- ->. subst b2.
    exists b1, mid, r2. repeat split; auto.
    intros Hin. apply Hn2. apply in_app_or in Hin.
    apply in_or_app. destruct Hin; [now left|right; now right].
Qed.

(** C9, amended. Missing or malformed markers: for a file that opens
    and decodes, when the lines read (cut at line ends of any kind, each
    one stripped at both ends, as every render reads them) lack the
    start marker or the end marker, or hold the end marker before the
    start marker, the render returns normally and writes all the lines
    it read, none removed and in their order, followed by the start
    marker, the entries of the registry and the end marker, with one
    line feed between two lines. *)
Theorem render_without_section
        (w : world) (content : string) (lines : list string) :
  hostsfile w = Some content ->
  read_lines content = Ok lines ->
  malformed lines ->
  let text :=
    String.concat (String "010" "")
      (lines ++ _hostfile_start_marker
             :: section_entries (domain cfg) (byname (reg w))
             ++ [_hostfile_end_marker]) in
  update_hosts cfg w
  = (Ok tt, {| reg := reg w;
               hostsfile := Some text;
               effects := effects w ++ render_effects cfg text |}).
Proof.
  intros Hfile Hread Hbad text.
  rewrite (update_hosts_present cfg w content lines Hfile Hread).
  rewrite (rendered_read cfg (reg w) content lines Hread).
  now rewrite (without_section_malformed _ Hbad).
Qed.

(** C10. The section is the last block of what a render writes: for a
    file that opens and decodes, the render returns normally and writes
    the lines it keeps, then the new section, with one line feed
    between two lines; the text ends with the end marker, without a
    line feed after it.  The lines kept are all the lines read when the
    markers are malformed; when they delimit a section, the lines
    before it and the lines after it, so that the lines after the old
    section now come before the new one. *)
Theorem section_is_final_block
        (w : world) (content : string) (lines : list string) :
  hostsfile w = Some content ->
  read_lines content = Ok lines ->
  let sect := new_section (domain cfg) (byname (reg w)) in
  exists kept text,
    update_hosts cfg w
    = (Ok tt, {| reg := reg w;
                 hostsfile := Some text;
                 effects := effects w ++ render_effects cfg text |}) /\
    text = String.concat (String "010" "") (kept ++ sect) /\
    (exists prefix,
        text = (prefix ++ String.concat (String "010" "") sect)%string) /\
    (exists body,
        text = (body ++ String "010" _hostfile_end_marker)%string) /\
    (malformed lines -> kept = lines) /\
    (forall before mid after,
        lines = before ++ _hostfile_start_marker :: mid
                       ++ _hostfile_end_marker :: after ->
        ~ In _hostfile_start_marker before ->
        ~ In _hostfile_end_marker (before ++ mid) ->
        kept = before ++ after).
Proof.
  intros Hfile Hread sect.
  exists (without_section lines), (rendered cfg (reg w) content).
  split; [now apply (update_hosts_present cfg w content lines)|].
  rewrite (rendered_read cfg (reg w) content lines Hread). fold sect.
  split; [reflexivity|].
  assert (Hsect : sect <> []) by discriminate.
  fold newline. fold (join sect).
  change (String.concat newline (without_section lines ++ sect))
    with (join (without_section lines ++ sect)).
  split; [|split; [|split]].
  - destruct (without_section lines) as [|l ls] eqn:E.
    + now exists EmptyString.
    + exists (join (l :: ls) ++ newline)%string.
      rewrite join_app by (assumption || discriminate).
      now rewrite append_assoc.
  - exists (join (without_section lines
                    ++ _hostfile_start_marker
                    :: section_entries (domain cfg) (byname (reg w)))).
    unfold sect, new_section.
    change (String "010" _hostfile_end_marker)
      with (newline ++ _hostfile_end_marker)%string.
    rewrite <- join_last.
    + f_equal. cbn [app]. now rewrite <- app_assoc.
    + intros E. apply app_eq_nil in E. destruct E as [_ E].
      discriminate E.
  - apply without_section_malformed.
  - intros before mid after -> Hs He.
    now apply without_section_delimited.
Qed.

(** C3, amended. Section round-trip: for a file that opens and decodes,
    when the lines read hold a start marker and, after it, an end
    marker (each at its first occurrence), the render returns normally
    and writes the lines before the start marker, then the lines after
    the end marker, then the new section: exactly the range from the
    start marker through the end marker is gone.  The lines before the
    start marker are the lines of the file, as text mode cuts them,
    with the whitespace at both ends removed. *)
Theorem section_roundtrip
        (w : world) (content : string) (raw : list text)
        (before mid after : list string) :
  hostsfile w = Some content ->
  readlines content = Ok raw ->
  map (fun l => encode (strip l)) raw
  = before ++ _hostfile_start_marker :: mid
           ++ _hostfile_end_marker :: after ->
  ~ In _hostfile_start_marker before ->
  ~ In _hostfile_end_marker (before ++ mid) ->
  let text :=
    String.concat (String "010" "")
      (before ++ after
              ++ _hostfile_start_marker
              :: section_entries (domain cfg) (byname (reg w))
              ++ [_hostfile_end_marker]) in
  update_hosts cfg w
  = (Ok tt, {| reg := reg w;
               hostsfile := Some text;
               effects := effects w ++ render_effects cfg text |}) /\
  before
  = map (fun l => encode (strip l)) (firstn (List.length before) raw).
Proof.
  intros Hfile Hraw Hlines Hs He text.
  assert (Hread : read_lines content
                  = Ok (before ++ _hostfile_start_marker :: mid
                               ++ _hostfile_end_marker :: after)).
  { unfold read_lines. now rewrite Hraw, Hlines. }
  split.
  - rewrite (update_hosts_present cfg w content _ Hfile Hread).
    rewrite (rendered_read cfg (reg w) content _ Hread).
    rewrite without_section_delimited by assumption.
    subst text. unfold join, new_section. cbn [app].
    now rewrite <- app_assoc.
  - rewrite <- firstn_map, Hlines. symmetry. apply firstn_exact.
Qed.

End Rendering.

(** The three statements at sample files. *)

Section RenderingSamples.

Lemma render_without_section_witness :
  read_lines open_section_file
  = Ok ["127.0.0.1 localhost";
        "# === start dnsthing ===";
        "10.9.9.9 stale.app.docker"] /\
  hostsfile (state_of (update_hosts quiet (web_world open_section_file)))
  = Some "127.0.0.1 localhost
# === start dnsthing ===
10.9.9.9 stale.app.docker
# === start dnsthing ===
10.0.0.2 web.app.docker
# === end dnsthing ===".
Proof.
  assert (Hread : read_lines open_section_file
                  = Ok ["127.0.0.1 localhost";
                        "# === start dnsthing ===";
                        "10.9.9.9 stale.app.docker"]) by reflexivity.
  split; [exact Hread|].
  rewrite (render_without_section quiet (web_world open_section_file)
             open_section_file _ eq_refl Hread).
  - reflexivity.
  - right. left. intros Hin.
    repeat (destruct Hin as [Hin|Hin]; [discriminate Hin|]).
    exact Hin.
Defined.

(** C9 as stated fails on two files without markers.  The first is not
    valid UTF-8: [readlines] raises [UnicodeDecodeError], outside the
    [try] of the marker search.  The second has an indented line: the
    render writes it stripped, so what it writes does not start with
    the prior content. *)
Lemma render_without_section_counterexample :
  ~ render_without_section_as_stated quiet (web_world latin1_file) /\
  ~ render_without_section_as_stated quiet (web_world indented_plain_file).
Proof.
  split; intros H; destruct (H _ eq_refl eq_refl) as [Hok [rest Hrest]].
  - discriminate Hok.
  - vm_compute in Hrest. discriminate Hrest.
Qed.

Lemma section_is_final_block_witness :
  hostsfile (state_of (update_hosts quiet
                         (web_world section_in_the_middle_file)))
  = Some "127.0.0.1 localhost
192.168.1.1 router
# === start dnsthing ===
10.0.0.2 web.app.docker
# === end dnsthing ===".
Proof.
  destruct (section_is_final_block quiet
              (web_world section_in_the_middle_file)
              section_in_the_middle_file
              ["127.0.0.1 localhost"; "# === start dnsthing ===";
               "10.9.9.9 stale.app.docker"; "# === end dnsthing ===";
               "192.168.1.1 router"]
              eq_refl eq_refl)
    as (kept & text & Hrun & Htext & _ & _ & _ & Hkept).
  rewrite Hrun, Htext.
  rewrite (Hkept ["127.0.0.1 localhost"] ["10.9.9.9 stale.app.docker"]
             ["192.168.1.1 router"] eq_refl).
  - reflexivity.
  - intros [H|[]]. discriminate H.
  - intros [H|[H|[]]]; discriminate H.
Defined.

Lemma section_roundtrip_witness :
  hostsfile (state_of (update_hosts quiet
                         (web_world indented_section_file)))
  = Some "10.0.0.1 gw
fe80::1 gw6
# === start dnsthing ===
10.0.0.2 web.app.docker
# === end dnsthing ===".
Proof.
  destruct (section_roundtrip quiet (web_world indented_section_file)
              indented_section_file
              (match readlines indented_section_file with
               | Ok raw => raw
               | Raise _ => []
               end)
              ["10.0.0.1 gw"; "fe80::1 gw6"]
              ["10.9.9.9 stale.app.docker"] []
              eq_refl eq_refl eq_refl) as [Hrun _].
  - intros [H|[H|[]]]; discriminate H.
  - intros [H|[H|[H|[]]]]; discriminate H.
  - now rewrite Hrun.
Defined.

End RenderingSamples.

(** ** The round-trip as the specification words it *)

Section RoundTripAsStated.

Lemma cons_inv {A} (x y : A) (l l' : list A) :
  x :: l = y :: l' -> x = y /\ l = l'.
Proof. intros [= -> ->]. auto. Qed.

(** Solving an equation between a known list and an append of unknown
    lists around known elements, by cases on the unknown lists. *)
Ltac crack :=
  repeat match goal with
    | H : [] = _ :: _ |- _ => discriminate H
    | H : _ :: _ = [] |- _ => discriminate H
    | H : _ :: _ = _ :: _ |- _ =>
        let E := fresh "E" in
        apply cons_inv in H; destruct H as [E H];
        first [discriminate E | subst | clear E]
    | H : _ = ?l ++ _ |- _ => is_var l; destruct l; cbn [app] in H
    end.

(** C3 as stated fails on two files.  In the first a line before the
    section starts with two spaces: the render writes it without them,
    so it is not the line of the file with its trailing whitespace
    removed.  The second holds both markers, the end marker first: no
    range from a start marker through an end marker is there to be
    removed, and the render removes nothing. *)
Lemma section_roundtrip_counterexample :
  ~ section_roundtrip_as_stated quiet registry_init indented_file /\
  ~ section_roundtrip_as_stated quiet registry_init end_before_start_file.
Proof.
  split; intros H.
  - specialize (H (match readlines indented_file with
                   | Ok raw => raw
                   | Raise _ => []
                   end) eq_refl).
    cbv zeta in H.
    assert (Hl : map (fun l => encode (strip l))
                     (match readlines indented_file with
                      | Ok raw => raw
                      | Raise _ => []
                      end)
                 = ["10.0.0.1 gw"; "# === start dnsthing ===";
                    "10.9.9.9 stale.app.docker";
                    "# === end dnsthing ==="]) by reflexivity.
    rewrite Hl in H.
    destruct H as (before & mid & after & Hdec & Htext);
      [right; left; reflexivity | do 3 right; left; reflexivity |].
    unfold _hostfile_start_marker, _hostfile_end_marker in Hdec.
    crack. vm_compute in Htext. discriminate Htext.
  - specialize (H (match readlines end_before_start_file with
                   | Ok raw => raw
                   | Raise _ => []
                   end) eq_refl).
    cbv zeta in H.
    assert (Hl : map (fun l => encode (strip l))
                     (match readlines end_before_start_file with
                      | Ok raw => raw
                      | Raise _ => []
                      end)
                 = ["# === end dnsthing ==="; "192.168.1.1 router";
                    "# === start dnsthing ==="]) by reflexivity.
    rewrite Hl in H.
    destruct H as (before & mid & after & Hdec & Htext);
      [do 2 right; left; reflexivity | left; reflexivity |].
    unfold _hostfile_start_marker, _hostfile_end_marker in Hdec.
    crack.
Qed.

End RoundTripAsStated.

(** * Further properties of the registry *)

Section RegistryMore.
Import Dict DictFacts.

(** X1. Sample sequence for the lock-step without renames. *)
Lemma lockstep_without_rename_witness :
  Forall (presented sample_naming)
         [Register (Container web); Register (Container db);
          Register (Container hostmode); Unregister (Container web)] /\
  lockstep (state_of (run_ops [Register (Container web);
                               Register (Container db);
                               Register (Container hostmode);
                               Unregister (Container web)]
                              registry_init)).
Proof.
  assert (H : Forall (presented sample_naming)
                [Register (Container web); Register (Container db);
                 Register (Container hostmode);
                 Unregister (Container web)]).
  { repeat constructor. }
  split; [exact H|].
  exact (lockstep_without_rename sample_naming _ H).
Defined.

(** X2. Sample registry for the removal of a record. *)
Lemma unregister_removes_record_witness :
  let r := state_of (run_ops [Register (Container web);
                              Register (Container db)] registry_init) in
  outcome_of (unregister (Container web) r) = Ok tt /\
  lookup "c1" (byid (state_of (unregister (Container web) r))) = None /\
  lookup "web" (byname (state_of (unregister (Container web) r))) = None.
Proof.
  intros r.
  apply (unregister_removes_record sample_naming web r).
  - apply (run_ops_steady sample_naming).
    + repeat constructor.
    + apply steady_init.
  - reflexivity.
  - reflexivity.
Defined.

Lemma remove_absent {V} k (d : Dict.t V) :
  lookup k d = None -> remove k d = d.
Proof.
  induction d as [|[k' v'] d IH]; simpl; auto.
  destruct (String.eqb k k'); [discriminate|].
  intros H. now rewrite IH.
Qed.

Lemma remove_set_absent {V} k (v : V) (d : Dict.t V) :
  lookup k d = None -> remove k (set k v d) = d.
Proof.
  induction d as [|[k' v'] d IH]; simpl.
  - now rewrite String.eqb_refl.
  - destruct (String.eqb k k') eqn:E; [discriminate|].
    intros H. simpl. rewrite E. now rewrite IH.
Qed.

(** X3. Register, then unregister: for a container whose derived name
    and id are both unknown to the registry, [register] followed by
    [unregister] of the same container returns normally and gives the
    registry back as it was, whether the container had an address (it
    was entered, then removed) or not (both calls did nothing). *)
Theorem register_then_unregister (c : container) (r : registry) :
  mem (derived_name c) (byname r) = false ->
  mem (id c) (byid r) = false ->
  run_ops [Register (Container c); Unregister (Container c)] r = (Ok tt, r).
Proof.
  intros Hn Hi. simpl. unfold Py.bind.
  destruct (register_cases c r) as [H|(nws & _ & _ & _ & H)]; rewrite H.
  - rewrite unregister_absent by assumption. reflexivity.
  - rewrite unregister_present.
    + cbn [byname byid]. apply mem_false in Hn, Hi.
      rewrite !remove_set_absent by assumption.
      now destruct r.
    + apply mem_true. eexists. apply lookup_set_eq.
    + apply mem_true. eexists. apply lookup_set_eq.
Qed.

Lemma register_then_unregister_witness :
  let r := state_of (register (Container web) registry_init) in
  run_ops [Register (Container db); Unregister (Container db)] r
  = (Ok tt, r).
Proof.
  intros r. apply register_then_unregister; reflexivity.
Defined.

Lemma run_op_well_keyed x r :
  well_keyed r -> well_keyed (state_of (run_op x r)).
Proof.
  intros [K1 K2]. destruct x as [[c|]|o]; cbn [run_op].
  - destruct (register_cases c r) as [H|(nws & _ & _ & _ & H)];
      rewrite H; [now split|].
    split; cbn; intros key h Hl; apply lookup_set_inv in Hl;
      destruct Hl as [[-> ->]|Hl]; auto.
  - now split.
  - destruct (unregister_shrinks o r) as [Hid Hname].
    split; intros key h Hl; [apply K1, Hid | apply K2, Hname]; exact Hl.
Qed.

(** X4. The keys agree with the records, whatever the calls: after any
    sequence of register and unregister calls on a fresh registry, also
    one with renamed containers or one cut short by an exception, a
    record found in [byid] under a key has that key as its id, and a
    record found in [byname] under a key has that key as its name. *)
Theorem run_ops_well_keyed (ops : list op) :
  well_keyed (state_of (run_ops ops registry_init)).
Proof.
  assert (H : forall r, well_keyed r -> well_keyed (state_of (run_ops ops r))).
  { induction ops as [|x ops IH]; intros r Hr; [exact Hr|].
    pose proof (run_op_well_keyed x r Hr) as Hx.
    simpl. unfold Py.bind.
    destruct (run_op x r) as [[[]|e] r'] eqn:E; cbn in Hx.
    - now apply IH.
    - exact Hx. }
  apply H. split; intros key h Hl; discriminate Hl.
Qed.

End RegistryMore.

(** ** The lines of a section *)

Section SectionLines.
Import Dict DictFacts.

Lemma in_remove_inv {V} k k' (v : V) (d : Dict.t V) :
  In (k', v) (remove k d) -> In (k', v) d.
Proof.
  induction d as [|[k0 v0] d IH]; simpl; auto.
  destruct (String.eqb k k0); simpl.
  - auto.
  - intros [H|H]; auto.
Qed.

Lemma run_op_listed_addressed x r :
  listed_addressed r -> listed_addressed (state_of (run_op x r)).
Proof.
  intros Hr. destruct x as [[c|]|[c|]]; cbn [run_op]; try exact Hr.
  - destruct (register_cases c r) as [H|(nws & _ & _ & Ht & H)];
      rewrite H; [exact Hr|].
    intros key h Hin. cbn in Hin. apply in_set_inv in Hin.
    destruct Hin as [[_ ->]|Hin]; [now apply host_of_addressed|].
    now apply (Hr key).
  - destruct (mem (id c) (byid r)) eqn:Hi.
    + destruct (mem (derived_name c) (byname r)) eqn:Hn.
      * rewrite unregister_present by assumption.
        intros key h Hin. cbn in Hin. apply in_remove_inv in Hin.
        now apply (Hr key).
      * rewrite unregister_renamed by assumption. exact Hr.
    + rewrite unregister_absent by assumption. exact Hr.
Qed.

Lemma run_ops_listed_addressed ops :
  forall r, listed_addressed r -> listed_addressed (state_of (run_ops ops r)).
Proof.
  induction ops as [|x ops IH]; intros r Hr; [exact Hr|].
  pose proof (run_op_listed_addressed x r Hr) as Hx.
  simpl. unfold Py.bind.
  destruct (run_op x r) as [[[]|e] r'] eqn:E; cbn in Hx.
  - now apply IH.
  - exact Hx.
Qed.

(** X5. No entry without an address: after any sequence of register
    and unregister calls on a fresh registry, every line between the
    markers of a section rendered from the registry is
    [<address> <name>.<network>.<domain>] for a name listed in [byname],
    with an address that is not empty; and every name listed in
    [byname] has at least one such line. *)
Theorem section_entries_addressed (ops : list op) (dom : string) :
  let bn := byname (state_of (run_ops ops registry_init)) in
  (forall line, In line (section_entries dom bn) ->
     exists name h nwname address,
       In (name, h) (items bn) /\
       In (nwname, address) (items (networks h)) /\
       address <> "" /\
       line = format_entry address name nwname dom) /\
  (forall name h, In (name, h) (items bn) ->
     exists nwname address,
       In (format_entry address name nwname dom) (section_entries dom bn)).
Proof.
  intros bn.
  assert (Hinv : listed_addressed (state_of (run_ops ops registry_init))).
  { apply run_ops_listed_addressed. intros key h []. }
  split.
  - intros line Hin. unfold section_entries in Hin.
    apply in_flat_map in Hin. destruct Hin as [[name h] [Hnh Hin]].
    apply in_map_iff in Hin. destruct Hin as [[nwname address] [<- Hnw]].
    exists name, h, nwname, address. repeat split; auto.
    destruct (Hinv name h Hnh) as [_ Haddr]. now apply (Haddr nwname).
  - intros name h Hnh.
    destruct (Hinv name h Hnh) as [Hne _].
    destruct (networks h) as [|[nwname address] rest] eqn:E;
      [congruence|].
    exists nwname, address. unfold section_entries.
    apply in_flat_map. exists (name, h). split; [exact Hnh|].
    apply in_map_iff. exists (nwname, address). split; [reflexivity|].
    unfold items. rewrite E. now left.
Qed.

End SectionLines.

(** * Further properties of the reconciler *)

Section LoopMore.
Variable cfg : config.

(** X6. Ignored events: an event that is not of type [container], and
    a container event whose action is neither [start] nor [die] and
    whose container was inspected or reported as not found, leave the
    registry, the file and the effects as they are and raise nothing. *)
Theorem process_ignored (ev : event) (answer : outcome container)
        (w : world) :
  ev_type ev <> "container" \/
  (ev_action ev <> "start" /\ ev_action ev <> "die" /\
   forall e, answer = Raise e -> e = NotFound) ->
  process cfg ev answer w = (Ok tt, w).
Proof.
  intros [Ht|(Hs & Hd & Ha)]; unfold process.
  - apply String.eqb_neq in Ht. now rewrite Ht.
  - destruct (negb (String.eqb (ev_type ev) "container")); [reflexivity|].
    unfold handler_for. apply String.eqb_neq in Hs, Hd. rewrite Hs, Hd.
    destruct answer as [c|e]; [reflexivity|].
    now rewrite (Ha e eq_refl).
Qed.

Lemma process_reraises (ev : event) (e : exn) (w : world) :
  ev_type ev = "container" ->
  e <> NotFound ->
  process cfg ev (Raise e) w = (Raise e, w).
Proof.
  intros Ht He. unfold process. rewrite Ht. cbn.
  unfold Py.try_except, Py.bind, Py.of_outcome.
  destruct e; try reflexivity. congruence.
Qed.

(** X7. Inspection errors other than [NotFound]: for a container event
    of any action, handled or not, an exception of
    [client.containers.get] that is not [NotFound] leaves [process]
    as it is, before any handler is looked up; nothing is changed. *)
Theorem process_inspection_error (ev : event) (e : exn) (w : world) :
  ev_type ev = "container" ->
  e <> NotFound ->
  process cfg ev (Raise e) w = (Raise e, w).
Proof. exact (process_reraises ev e w). Qed.

Lemma event_loop_app evs1 evs2 w :
  event_loop cfg (evs1 ++ evs2) w
  = Py.bind (event_loop cfg evs1) (fun _ => event_loop cfg evs2) w.
Proof.
  revert w. induction evs1 as [|[ev answer] evs1 IH]; intros w.
  - reflexivity.
  - simpl. unfold Py.bind in *.
    destruct (process cfg ev answer w) as [[[]|e] w']; [apply IH|reflexivity].
Qed.

Lemma register_all_registrations cs w :
  register_all cs w
  = (Ok tt, {| reg := state_of (run_ops (registrations cs) (reg w));
               hostsfile := hostsfile w;
               effects := effects w |}).
Proof.
  revert w. induction cs as [|c cs IH]; intros w.
  - now destruct w.
  - simpl. unfold Py.bind, in_registry, Py.zoom.
    pose proof (register_returns c (reg w)) as Hret.
    destruct (register (Container c) (reg w)) as [o r'].
    cbn in Hret. subst o. rewrite IH. reflexivity.
Qed.

(** X8. The initial scan: with a hosts file that opens and decodes,
    [scan] returns normally; the registry is the one the [register]
    calls on the listed containers, in the order listed, lead to (none
    of them raises), and the file is rendered exactly once, after all
    of them, also when the list is empty: the lines read without their
    old section, then the section of that registry. *)
Theorem scan_registers_then_renders
        (running : list container) (w : world) (content : string)
        (lines : list string) :
  hostsfile w = Some content ->
  read_lines content = Ok lines ->
  let r' := state_of (run_ops (registrations running) (reg w)) in
  let text := join (without_section lines
                      ++ new_section (domain cfg) (byname r')) in
  outcome_of (run_ops (registrations running) (reg w)) = Ok tt /\
  scan cfg running w
  = (Ok tt, {| reg := r';
               hostsfile := Some text;
               effects := effects w ++ render_effects cfg text |}).
Proof.
  intros Hfile Hread r' text. split.
  - clear. generalize (reg w). induction running as [|c cs IH]; intros r.
    + reflexivity.
    + simpl. unfold Py.bind.
      pose proof (register_returns c r) as Hret.
      destruct (register (Container c) r) as [o r1].
      cbn in Hret. subst o. apply IH.
  - unfold scan, Py.bind. rewrite register_all_registrations.
    rewrite (update_hosts_present _ _ content lines) by assumption.
    cbn [reg effects]. fold r'.
    now rewrite (rendered_read cfg r' content lines Hread).
Qed.

(** X9. A hosts file that cannot be opened: [run] registers the
    listed containers, then the first render raises; no event of the
    stream is processed, nothing is written and no command is run.  The
    file is never created. *)
Theorem run_without_hosts_file
        (running : list container) (evs : list (event * outcome container))
        (w : world) :
  hostsfile w = None ->
  run cfg running evs w
  = (Raise OSError,
     {| reg := state_of (run_ops (registrations running) (reg w));
        hostsfile := None;
        effects := effects w |}).
Proof.
  intros Hfile. unfold run, scan, Py.bind.
  rewrite register_all_registrations.
  rewrite update_hosts_missing by exact Hfile. now rewrite Hfile.
Qed.

End LoopMore.

Section LoopSamples.

Lemma process_ignored_witness :
  process reloading
          {| ev_type := "container"; ev_action := "destroy"; ev_id := "c7" |}
          (Raise NotFound) (web_world "")
  = (Ok tt, web_world "").
Proof.
  apply process_ignored. right.
  repeat split; try discriminate. now intros e [= <-].
Defined.

Lemma process_inspection_error_witness :
  process reloading
          {| ev_type := "container"; ev_action := "destroy"; ev_id := "c7" |}
          (Raise ConnectionError) (web_world "")
  = (Raise ConnectionError, web_world "").
Proof.
  apply process_inspection_error; [reflexivity | discriminate].
Defined.

Lemma scan_registers_then_renders_witness :
  let text := "127.0.0.1 localhost
192.168.1.1 router
# === start dnsthing ===
10.0.0.2 web.app.docker
10.0.0.3 db.app.docker
# === end dnsthing ===" in
  scan quiet [web; web_twin; hostmode; db]
       (world_init (Some section_in_the_middle_file))
  = (Ok tt,
     {| reg := {| byname := [("web", web_host); ("db", db_host)];
                  byid := [("c1", web_host); ("c2", db_host)] |};
        hostsfile := Some text;
        effects := [Wrote text] |}).
Proof.
  intros text.
  destruct (scan_registers_then_renders quiet [web; web_twin; hostmode; db]
              (world_init (Some section_in_the_middle_file))
              section_in_the_middle_file _ eq_refl eq_refl) as [_ H].
  rewrite H. reflexivity.
Defined.

Lemma run_without_hosts_file_witness :
  run reloading [web] [(start_event "c2", Ok db)] (world_init None)
  = (Raise OSError,
     {| reg := {| byname := [("web", web_host)];
                  byid := [("c1", web_host)] |};
        hostsfile := None;
        effects := [] |}).
Proof.
  rewrite (run_without_hosts_file reloading [web] _ (world_init None) eq_refl).
  reflexivity.
Defined.

End LoopSamples.

(** ** The effects of a whole run *)

Section Traces.
Variable cfg : config.
Variable file : option string.

Lemma bind_keeps {S A B} (P : S -> Prop) (m : Py.M S A) (f : A -> Py.M S B) :
  (forall s, P s -> P (state_of (m s))) ->
  (forall a s, P s -> P (state_of (f a s))) ->
  forall s, P s -> P (state_of (Py.bind m f s)).
Proof.
  intros Hm Hf s Hs. unfold Py.bind. specialize (Hm s Hs).
  destruct (m s) as [[a|e] s']; cbn in Hm.
  - now apply Hf.
  - exact Hm.
Qed.

Lemma in_registry_traced {A} (m : Py.M registry A) w :
  traced cfg file w -> traced cfg file (state_of (in_registry m w)).
Proof.
  intros H. unfold in_registry, Py.zoom.
  now destruct (m (reg w)) as [o r'].
Qed.

Lemma update_hosts_traced w :
  traced cfg file w -> traced cfg file (state_of (update_hosts cfg w)).
Proof.
  intros (ps & He & Hf).
  destruct (hostsfile w) as [content|] eqn:Hfile.
  - destruct (read_lines content) as [lines|e] eqn:Hread.
    + rewrite (update_hosts_present cfg w content lines Hfile Hread).
      exists (ps ++ [(reg w, content)]). cbn. split.
      * rewrite flat_map_app, He. cbn. now rewrite app_nil_r.
      * unfold file_after. now rewrite fold_left_app.
    + rewrite (update_hosts_undecodable cfg w content e Hfile Hread).
      exists ps. unfold state_of. cbn [snd].
      split; [exact He | now rewrite Hfile].
  - rewrite (update_hosts_missing cfg w Hfile). exists ps.
    unfold state_of. cbn [snd]. split; [exact He | now rewrite Hfile].
Qed.

Lemma process_traced ev answer w :
  traced cfg file w -> traced cfg file (state_of (process cfg ev answer w)).
Proof.
  unfold process.
  destruct (negb (String.eqb (ev_type ev) "container")); [auto|].
  apply bind_keeps.
  - intros s Hs. unfold Py.try_except, Py.bind, Py.of_outcome.
    destruct answer as [c|e]; [exact Hs|].
    now destruct (is_NotFound e).
  - intros o s Hs. unfold handler_for.
    destruct (String.eqb (ev_action ev) "start").
    + unfold handle_start. apply bind_keeps; auto.
      * intros s0. apply in_registry_traced.
      * intros _ s0. apply update_hosts_traced.
    + destruct (String.eqb (ev_action ev) "die"); [|exact Hs].
      unfold handle_die. apply bind_keeps; auto.
      * intros s0. apply in_registry_traced.
      * intros _ s0. apply update_hosts_traced.
Qed.

Lemma event_loop_traced evs :
  forall w, traced cfg file w ->
            traced cfg file (state_of (event_loop cfg evs w)).
Proof.
  induction evs as [|[ev answer] evs IH]; intros w Hw; [exact Hw|].
  simpl. apply bind_keeps; auto.
  intros s. apply process_traced.
Qed.

Lemma run_traced running evs w :
  traced cfg file w -> traced cfg file (state_of (run cfg running evs w)).
Proof.
  unfold run, scan. intros Hw. apply bind_keeps; auto.
  - intros s Hs. apply bind_keeps; auto.
    + intros s0 Hs0. rewrite register_all_registrations. exact Hs0.
    + intros _ s0. apply update_hosts_traced.
  - intros _ s. apply event_loop_traced.
Qed.

Lemma traced_init : traced cfg file (world_init file).
Proof. exists []. now split. Qed.

Lemma in_render_of e ps :
  In e (flat_map (render_of cfg) ps) ->
  exists r content,
    e = Wrote (rendered cfg r content) \/
    exists cmd, e = Ran cmd /\ onupdate cfg = Some cmd.
Proof.
  intros Hin. apply in_flat_map in Hin.
  destruct Hin as [[r content] [_ Hin]]. exists r, content.
  unfold render_of, render_effects in Hin. cbn [fst snd] in Hin.
  destruct Hin as [<-|Hin]; [now left|].
  destruct (onupdate cfg) as [cmd|]; [|destruct Hin].
  destruct Hin as [<-|[]]. right. now exists cmd.
Qed.

Lemma run_effects_are_renders_aux
      (running : list container) (evs : list (event * outcome container)) :
  let w := state_of (run cfg running evs (world_init file)) in
  (forall cmd, In (Ran cmd) (effects w) -> onupdate cfg = Some cmd) /\
  (forall text, In (Wrote text) (effects w) ->
                exists r content, text = rendered cfg r content).
Proof.
  intros w.
  pose proof (run_traced running evs _ traced_init) as Ht. fold w in Ht.
  destruct Ht as (ps & He & _). rewrite He.
  split.
  - intros cmd Hin. apply in_render_of in Hin.
    destruct Hin as (r & content & [H|(c & [= <-] & Hc)]);
      [discriminate H | exact Hc].
  - intros text Hin. apply in_render_of in Hin.
    destruct Hin as (r & content & [[= ->]|(c & H & _)]);
      [now exists r, content | discriminate H].
Qed.

(** X10. The effects of a run, whatever the containers and events and
    however it ends: they are those of a series of renders, each a
    write of the file followed, when an update command is configured,
    by one call of that command and of no other; a command is never run
    without the write just before it.  The file holds what the last
    render wrote, or what it held at the start when there was none. *)
Theorem run_effects_are_renders
        (running : list container) (evs : list (event * outcome container)) :
  let w := state_of (run cfg running evs (world_init file)) in
  (exists ps,
      effects w = flat_map (render_of cfg) ps /\
      hostsfile w = file_after cfg ps file) /\
  (forall cmd, In (Ran cmd) (effects w) -> onupdate cfg = Some cmd) /\
  (forall text, In (Wrote text) (effects w) ->
                exists r content, text = rendered cfg r content).
Proof.
  intros w.
  pose proof (run_traced running evs _ traced_init) as Ht. fold w in Ht.
  split; [exact Ht|]. apply run_effects_are_renders_aux.
Qed.

End Traces.

(** ** The entry point *)

Section Main.

Lemma run_app cfg running evs1 evs2 w :
  run cfg running (evs1 ++ evs2) w
  = Py.bind (run cfg running evs1) (fun _ => event_loop cfg evs2) w.
Proof.
  unfold run, Py.bind.
  destruct (scan cfg running w) as [[[]|e] w1]; [|reflexivity].
  rewrite event_loop_app. reflexivity.
Qed.

Lemma main_state args running evs file :
  state_of (main args running evs file)
  = state_of (run (main_registry args) running evs (world_init file)).
Proof.
  unfold main, Py.try_except.
  destruct (run (main_registry args) running evs (world_init file))
    as [[[]|e] w]; [reflexivity|].
  now destruct (is_ConnectionError e).
Qed.

(** X11. Loss of the connection: when the events up to some point were
    processed without an exception and [client.containers.get] then
    raises [ConnectionError] on a container event, whatever its
    action, [main] returns normally, in the state the earlier events
    left; the events after that one are never processed. *)
Theorem main_stops_on_connection_error
        (args : Args.t) (running : list container)
        (evs1 evs2 : list (event * outcome container)) (ev : event)
        (file : option string) :
  ev_type ev = "container" ->
  outcome_of (run (main_registry args) running evs1 (world_init file))
  = Ok tt ->
  main args running (evs1 ++ (ev, Raise ConnectionError) :: evs2) file
  = (Ok tt, state_of (main args running evs1 file)).
Proof.
  intros Ht Hok. rewrite main_state. unfold main, Py.try_except.
  rewrite run_app. unfold Py.bind.
  destruct (run (main_registry args) running evs1 (world_init file))
    as [o w1]. cbn in Hok. subst o. simpl event_loop. unfold Py.bind.
  rewrite process_reraises by (assumption || discriminate).
  reflexivity.
Qed.

Lemma main_stops_on_connection_error_witness :
  main {| Args.loglevel := "WARN"; Args.domain := "lan";
          Args.hostsfile := "./hosts"; Args.update_command := None |}
       [web]
       ([(start_event "c2", Ok db)]
          ++ (die_event "c1", Raise ConnectionError)
          :: [(die_event "c2", Ok db)])
       (Some "")
  = (Ok tt,
     {| reg := {| byname := [("web", web_host); ("db", db_host)];
                  byid := [("c1", web_host); ("c2", db_host)] |};
        hostsfile := Some (join ["# === start dnsthing ===";
                                 "10.0.0.2 web.app.docker";
                                 "10.0.0.3 db.app.docker";
                                 "# === end dnsthing ==="]);
        effects := [Wrote (join ["# === start dnsthing ===";
                                 "10.0.0.2 web.app.docker";
                                 "# === end dnsthing ==="]);
                    Wrote (join ["# === start dnsthing ===";
                                 "10.0.0.2 web.app.docker";
                                 "10.0.0.3 db.app.docker";
                                 "# === end dnsthing ==="])] |}).
Proof.
  rewrite main_stops_on_connection_error; reflexivity.
Defined.

(** X12. What [main] writes and runs, whatever the arguments: every
    text written ends with a section whose entries carry the domain
    [docker], the value of [--domain] playing no part; and a command
    is run only if it is the value of [--update-command], which is then
    not the empty string. *)
Theorem main_writes_docker_entries
        (args : Args.t) (running : list container)
        (evs : list (event * outcome container)) (file : option string) :
  let w := state_of (main args running evs file) in
  (forall text, In (Wrote text) (effects w) ->
     exists kept bn,
       text = join (kept ++ _hostfile_start_marker
                         :: section_entries "docker" bn
                         ++ [_hostfile_end_marker])) /\
  (forall cmd, In (Ran cmd) (effects w) ->
     Args.update_command args = Some cmd /\ cmd <> "").
Proof.
  intros w. subst w. rewrite main_state.
  destruct (run_effects_are_renders_aux (main_registry args) file running evs)
    as (Hran & Hwrote).
  split.
  - intros text Hin. destruct (Hwrote text Hin) as (r & content & ->).
    now exists (without_section (lines_read content)), (byname r).
  - intros cmd Hin. specialize (Hran cmd Hin).
    unfold main_registry, registry_args in Hran. cbn in Hran.
    destruct (Args.update_command args) as [c|]; [|discriminate].
    destruct (String.eqb c "") eqn:E; [discriminate|].
    injection Hran as ->. split; [reflexivity|].
    now apply String.eqb_neq.
Qed.

End Main.

(** ** The handlers at sample events *)

Section HandlerSamples.

Lemma handle_start_renders_once_witness :
  let text := "127.0.0.1 localhost
192.168.1.1 router
# === start dnsthing ===
10.0.0.2 web.app.docker
10.0.0.3 db.app.docker
# === end dnsthing ===" in
  handle_start reloading (start_event "c2") (Container db)
               (web_world section_in_the_middle_file)
  = (Ok tt,
     {| reg := {| byname := [("web", web_host); ("db", db_host)];
                  byid := [("c1", web_host); ("c2", db_host)] |};
        hostsfile := Some text;
        effects := [Wrote text; Ran "systemctl reload dnsmasq"] |}).
Proof.
  intros text.
  rewrite (handle_start_renders_once reloading (start_event "c2") db
             (web_world section_in_the_middle_file)
             section_in_the_middle_file _ eq_refl eq_refl).
  reflexivity.
Defined.

Lemma handle_start_render_fails_witness :
  handle_start reloading (start_event "c1") (Container web)
               (world_init None)
  = (Raise OSError,
     {| reg := {| byname := [("web", web_host)];
                  byid := [("c1", web_host)] |};
        hostsfile := None;
        effects := [] |}).
Proof.
  rewrite (handle_start_render_fails reloading (start_event "c1") web
             (world_init None) eq_refl).
  reflexivity.
Defined.

Lemma handle_die_renders_once_witness :
  let text := "127.0.0.1 localhost
# === start dnsthing ===
10.9.9.9 stale.app.docker
# === start dnsthing ===
# === end dnsthing ===" in
  handle_die quiet (die_event "c1") (Container web)
             (web_world open_section_file)
  = (Ok tt,
     {| reg := registry_init;
        hostsfile := Some text;
        effects := [Wrote text] |}).
Proof.
  intros text.
  rewrite (handle_die_renders_once quiet (die_event "c1") (Container web)
             (web_world open_section_file) open_section_file _
             eq_refl eq_refl eq_refl).
  reflexivity.
Defined.

End HandlerSamples.

(** ** How a render can end *)

Section RenderOutcomes.
Variable cfg : config.

(** X21. The three ways a render ends.  When the file cannot be opened
    it raises [OSError]; when the file opens but its bytes are not
    valid in the encoding it raises [UnicodeDecodeError], from
    [readlines] and outside the [try] that guards the marker search;
    in both cases the file, the registry and the effects are left as
    they were and the post-update command is not run.  Otherwise it
    returns normally and the file holds the lines read without their
    old section, then the new section. *)
Theorem render_outcomes (w : world) :
  match hostsfile w with
  | None => update_hosts cfg w = (Raise OSError, w)
  | Some content =>
      match read_lines content with
      | Raise _ => update_hosts cfg w = (Raise UnicodeDecodeError, w)
      | Ok lines =>
          outcome_of (update_hosts cfg w) = Ok tt /\
          hostsfile (state_of (update_hosts cfg w))
          = Some (join (without_section lines
                          ++ new_section (domain cfg) (byname (reg w))))
      end
  end.
Proof.
  destruct (hostsfile w) as [content|] eqn:Hfile.
  - destruct (read_lines content) as [lines|e] eqn:Hread.
    + rewrite (update_hosts_present cfg w content lines Hfile Hread).
      split; [reflexivity|]. cbn.
      now rewrite (rendered_read cfg (reg w) content lines Hread).
    + rewrite (read_lines_raises content e Hread) in Hread.
      now apply (update_hosts_undecodable cfg w content).
  - now apply update_hosts_missing.
Qed.

End RenderOutcomes.

Section RenderOutcomesSample.

(** A hosts file in Latin-1, with a byte that is not valid UTF-8. *)
Lemma render_outcomes_witness :
  update_hosts reloading (web_world latin1_file)
  = (Raise UnicodeDecodeError, web_world latin1_file).
Proof. exact (render_outcomes reloading (web_world latin1_file)). Defined.

End RenderOutcomesSample.


(** ** Order of the networks and of the lines *)

Section Order.
Import Dict DictFacts.

Lemma set_absent_append {V} k (v : V) (d : Dict.t V) :
  lookup k d = None -> set k v d = d ++ [(k, v)].
Proof.
  induction d as [|[k' v'] d IH]; simpl; [reflexivity|].
  destruct (String.eqb k k'); [discriminate|].
  intros H. now rewrite IH.
Qed.

Lemma lookup_app_none {V} k (d1 d2 : Dict.t V) :
  lookup k d1 = None -> lookup k d2 = None -> lookup k (d1 ++ d2) = None.
Proof.
  induction d1 as [|[k' v'] d1 IH]; simpl; auto.
  destruct (String.eqb k k'); [discriminate|auto].
Qed.

Lemma fold_enter_fresh (nws : Dict.t endpoint) :
  forall acc : Dict.t string,
    NoDup (map fst nws) ->
    (forall k, In k (map fst nws) -> lookup k acc = None) ->
    fold_left enter_network nws acc
    = acc ++ map (fun p => (fst p, IPAddress (snd p)))
                 (filter (fun p => negb (String.eqb (IPAddress (snd p)) ""))
                         nws).
Proof.
  induction nws as [|[k e] nws IH]; intros acc Hnd Hfresh; simpl.
  - now rewrite app_nil_r.
  - inversion Hnd as [|? ? Hk Hnd']; subst.
    destruct (String.eqb (IPAddress e) "") eqn:E; simpl.
    + apply IH; [exact Hnd'|]. intros k' Hk'. apply Hfresh. now right.
    + rewrite set_absent_append by (apply Hfresh; now left).
      rewrite IH; [now rewrite <- app_assoc | exact Hnd' |].
      intros k' Hk'. apply lookup_app_none.
      * apply Hfresh. now right.
      * simpl. destruct (String.eqb k' k) eqn:Ek; [|reflexivity].
        apply String.eqb_eq in Ek. subst k'. contradiction.
Qed.

(** X19. The networks of a record: for an attachment map, whose keys
    are distinct, the record [register] builds lists exactly the
    networks with a non-empty address, each with its address, in the
    order of the map. *)
Theorem collect_networks_filter (nws : Dict.t endpoint) :
  NoDup (map fst nws) ->
  collect_networks nws
  = map (fun p => (fst p, IPAddress (snd p)))
        (filter (fun p => negb (String.eqb (IPAddress (snd p)) "")) nws).
Proof.
  intros Hnd. unfold collect_networks, items.
  now rewrite fold_enter_fresh.
Qed.

Lemma collect_networks_filter_witness :
  collect_networks [("app", {| IPAddress := "10.0.0.2" |});
                    ("host", {| IPAddress := "" |});
                    ("lan", {| IPAddress := "192.168.1.7" |})]
  = [("app", "10.0.0.2"); ("lan", "192.168.1.7")].
Proof.
  rewrite collect_networks_filter; [reflexivity|].
  repeat constructor; simpl; intuition discriminate.
Defined.

(** X20. Where the lines of a new container go: when [register]
    enters a container (name not taken, at least one address), the
    entries of the section are the entries as they were, in the same
    order, followed by one line for each network of the new record. *)
Theorem register_appends_lines
        (c : container) (nws : Dict.t endpoint) (r : registry)
        (dom : string) :
  mem (derived_name c) (byname r) = false ->
  Networks (NetworkSettings c) = Some nws ->
  truthy (collect_networks nws) = true ->
  section_entries dom (byname (state_of (register (Container c) r)))
  = section_entries dom (byname r)
      ++ map (fun nw : string * string =>
                format_entry (snd nw) (derived_name c) (fst nw) dom)
             (collect_networks nws).
Proof.
  intros Hfree Hn Ht. rewrite (register_fresh c nws r Hfree Hn Ht).
  unfold state_of. cbn [snd byname].
  rewrite set_absent_append by (now apply mem_false).
  unfold section_entries, items. rewrite flat_map_app. f_equal.
  simpl. rewrite app_nil_r. apply map_ext. now intros [nwname address].
Qed.

Lemma register_appends_lines_witness :
  section_entries "docker"
    (byname (state_of (register (Container db) (reg (web_world "")))))
  = ["10.0.0.2 web.app.docker"; "10.0.0.3 db.app.docker"].
Proof.
  rewrite (register_appends_lines db
             [("app", {| IPAddress := "10.0.0.3" |})]);
    reflexivity.
Defined.

End Order.

(** * Reading back what a render wrote *)

(** ** The encoding *)

Ltac Zify.zify_post_hook ::= Z.to_euclidean_division_equations.

Section Codec.
Local Open Scope N_scope.

Lemma byte_of_ascii_of n : n < 256 -> byte_of (ascii_of n) = n.
Proof. apply N_ascii_embedding. Qed.

Lemma byte_of_bound a : byte_of a < 256.
Proof. apply N_ascii_bounded. Qed.

Lemma continuation_of n :
  n < 64 -> continuation (ascii_of (0x80 + n)) = Some n.
Proof.
  intros H. unfold continuation. rewrite byte_of_ascii_of by lia.
  replace (128 <=? 128 + n) with true by (symmetry; apply N.leb_le; lia).
  replace (128 + n <=? 191) with true by (symmetry; apply N.leb_le; lia).
  cbn [andb]. f_equal. lia.
Qed.

Lemma decode_encode_char c s :
  valid_char c ->
  decode (encode_char c ++ s)%string = cons_ok c (decode s).
Proof.
  intros Hv. unfold valid_char in Hv. unfold encode_char.
  destruct (N.ltb_spec c 0x80) as [H1|H1].
  { cbn [append decode]. rewrite byte_of_ascii_of by lia.
    replace (c <? 128) with true by (symmetry; apply N.ltb_lt; lia).
    reflexivity. }
  destruct (N.ltb_spec c 0x800) as [H2|H2].
  { cbn [append decode]. rewrite byte_of_ascii_of by lia.
    replace (192 + c / 64 <? 128) with false
      by (symmetry; apply N.ltb_ge; lia).
    replace (194 <=? 192 + c / 64) with true
      by (symmetry; apply N.leb_le; lia).
    replace (192 + c / 64 <=? 223) with true
      by (symmetry; apply N.leb_le; lia).
    cbn [andb]. rewrite continuation_of by lia.
    f_equal. lia. }
  destruct (N.ltb_spec c 0x10000) as [H3|H3].
  { cbn [append decode]. rewrite byte_of_ascii_of by lia.
    replace (224 + c / 4096 <? 128) with false
      by (symmetry; apply N.ltb_ge; lia).
    replace (194 <=? 224 + c / 4096) with true
      by (symmetry; apply N.leb_le; lia).
    replace (224 + c / 4096 <=? 223) with false
      by (symmetry; apply N.leb_gt; lia).
    replace (224 <=? 224 + c / 4096) with true
      by (symmetry; apply N.leb_le; lia).
    replace (224 + c / 4096 <=? 239) with true
      by (symmetry; apply N.leb_le; lia).
    cbn [andb]. rewrite !continuation_of by lia.
    replace ((224 + c / 4096 - 224) * 4096 + (c / 64) mod 64 * 64 + c mod 64)
      with c by lia.
    replace (c <? 2048) with false by (symmetry; apply N.ltb_ge; lia).
    destruct Hv as [Hv|Hv].
    - replace (55296 <=? c) with false by (symmetry; apply N.leb_gt; lia).
      reflexivity.
    - replace (c <=? 57343) with false by (symmetry; apply N.leb_gt; lia).
      now rewrite andb_false_r. }
  cbn [append decode]. rewrite byte_of_ascii_of by lia.
  replace (240 + c / 262144 <? 128) with false
    by (symmetry; apply N.ltb_ge; lia).
  replace (194 <=? 240 + c / 262144) with true
    by (symmetry; apply N.leb_le; lia).
  replace (240 + c / 262144 <=? 223) with false
    by (symmetry; apply N.leb_gt; lia).
  replace (224 <=? 240 + c / 262144) with true
    by (symmetry; apply N.leb_le; lia).
  replace (240 + c / 262144 <=? 239) with false
    by (symmetry; apply N.leb_gt; lia).
  replace (240 <=? 240 + c / 262144) with true
    by (symmetry; apply N.leb_le; lia).
  replace (240 + c / 262144 <=? 244) with true
    by (symmetry; apply N.leb_le; lia).
  cbn [andb]. rewrite !continuation_of by lia.
  replace ((240 + c / 262144 - 240) * 262144 + (c / 4096) mod 64 * 4096
           + (c / 64) mod 64 * 64 + c mod 64) with c by lia.
  replace (c <? 65536) with false by (symmetry; apply N.ltb_ge; lia).
  replace (1114111 <? c) with false by (symmetry; apply N.ltb_ge; lia).
  reflexivity.
Qed.


Lemma decode_encode_app t s :
  Forall valid_char t ->
  decode (encode t ++ s)%string
  = match decode s with
    | Ok t' => Ok (t ++ t')%list
    | Raise e => Raise e
    end.
Proof.
  induction 1 as [|c t Hc _ IH]; simpl encode.
  - simpl. now destruct (decode s).
  - rewrite append_assoc. rewrite decode_encode_char by assumption.
    rewrite IH. now destruct (decode s).
Qed.

Lemma continuation_bound a c : continuation a = Some c -> c < 64.
Proof.
  unfold continuation.
  destruct (N.leb_spec 0x80 (byte_of a)); [|discriminate].
  destruct (N.leb_spec (byte_of a) 0xBF); [|discriminate].
  cbn [andb]. intros [= <-]. lia.
Qed.

Lemma cons_ok_inv c o t :
  cons_ok c o = Ok t -> exists t', o = Ok t' /\ t = c :: t'.
Proof. destruct o as [t'|e]; simpl; [|discriminate]. intros [= <-]. eauto. Qed.

Lemma decode_valid s : forall t, decode s = Ok t -> Forall valid_char t.
Proof.
  assert (Hn : forall n s, (String.length s <= n)%nat -> forall t,
                 decode s = Ok t -> Forall valid_char t).
  { clear s. induction n as [|n IH]; intros s Hlen t.
    - destruct s; [intros [= <-]; constructor|simpl in Hlen; lia].
    - destruct s as [|a0 s1]; [intros [= <-]; constructor|].
      simpl in Hlen. cbn [decode].
      pose proof (byte_of_bound a0) as Hb0.
      destruct (N.ltb_spec (byte_of a0) 0x80) as [H1|H1].
      { intros H. apply cons_ok_inv in H. destruct H as (t' & H & ->).
        constructor; [unfold valid_char; lia|]. apply (IH s1); [lia|exact H]. }
      destruct (N.leb_spec 0xC2 (byte_of a0)) as [H2|H2];
        [|cbn [andb]];
        destruct (N.leb_spec (byte_of a0) 0xDF) as [H3|H3]; cbn [andb].
      { destruct s1 as [|a1 s2]; [discriminate|].
        destruct (continuation a1) as [c1|] eqn:E1; [|discriminate].
        apply continuation_bound in E1.
        intros H. apply cons_ok_inv in H. destruct H as (t' & H & ->).
        constructor; [unfold valid_char; lia|].
        apply (IH s2); [simpl in Hlen; lia|exact H]. }
      all: destruct (N.leb_spec 0xE0 (byte_of a0)) as [H4|H4];
        [|cbn [andb]];
        destruct (N.leb_spec (byte_of a0) 0xEF) as [H5|H5]; cbn [andb];
        try lia.
      all: try (destruct s1 as [|a1 [|a2 s3]]; try discriminate;
        destruct (continuation a1) as [c1|] eqn:E1; [|discriminate];
        destruct (continuation a2) as [c2|] eqn:E2; [|discriminate];
        apply continuation_bound in E1, E2;
        match goal with
        | |- context [if ?b then _ else _] => destruct b eqn:Echeck
        end; [discriminate|];
        apply orb_false_iff in Echeck; destruct Echeck as [Elow Esur];
        apply N.ltb_ge in Elow;
        intros H; apply cons_ok_inv in H; destruct H as (t' & H & ->);
        constructor;
        [ unfold valid_char;
          apply andb_false_iff in Esur; destruct Esur as [Es|Es];
          [apply N.leb_gt in Es|apply N.leb_gt in Es]; lia
        | apply (IH s3); [simpl in Hlen; lia|exact H] ]).
      all: destruct (N.leb_spec 0xF0 (byte_of a0)) as [H6|H6];
        [|cbn [andb]];
        destruct (N.leb_spec (byte_of a0) 0xF4) as [H7|H7]; cbn [andb];
        try discriminate; try lia.
      all: destruct s1 as [|a1 [|a2 [|a3 s4]]]; try discriminate;
        destruct (continuation a1) as [c1|] eqn:E1; [|discriminate];
        destruct (continuation a2) as [c2|] eqn:E2; [|discriminate];
        destruct (continuation a3) as [c3|] eqn:E3; [|discriminate];
        apply continuation_bound in E1, E2, E3;
        match goal with
        | |- context [if ?b then _ else _] => destruct b eqn:Echeck
        end; [discriminate|];
        apply orb_false_iff in Echeck; destruct Echeck as [Elow Ehigh];
        apply N.ltb_ge in Elow, Ehigh;
        intros H; apply cons_ok_inv in H; destruct H as (t' & H & ->);
        constructor;
        [ unfold valid_char; lia
        | apply (IH s4); [simpl in Hlen; lia|exact H] ]. }
  apply (Hn (String.length s)). lia.
Qed.

End Codec.

Section TextLines.
Local Open Scope N_scope.

Lemma universal_newlines_keeps (P : N -> Prop) t :
  P LF_char -> Forall P t -> Forall P (universal_newlines t).
Proof.
  intros HLF.
  assert (Hn : forall n t, (List.length t <= n)%nat -> Forall P t ->
                 Forall P (universal_newlines t)).
  { clear t. induction n as [|n IH]; intros t Hlen Ht.
    - destruct t; [constructor|simpl in Hlen; lia].
    - destruct t as [|c t']; [constructor|]. simpl in Hlen.
      inversion Ht as [|? ? Hc Ht']; subst. cbn [universal_newlines].
      destruct (c =? CR_char).
      + constructor; [exact HLF|].
        destruct t' as [|c' t'']; [constructor|].
        inversion Ht' as [|? ? Hc' Ht'']; subst. simpl in Hlen.
        destruct (c' =? LF_char); apply IH; auto; simpl; lia.
      + constructor; [exact Hc|]. apply IH; [lia|exact Ht']. }
  apply (Hn (List.length t)). lia.
Qed.

Lemma universal_newlines_no_CR t :
  Forall (fun c => c <> CR_char) (universal_newlines t).
Proof.
  assert (Hn : forall n t, (List.length t <= n)%nat ->
                 Forall (fun c => c <> CR_char) (universal_newlines t)).
  { clear t. induction n as [|n IH]; intros t Hlen.
    - destruct t; [constructor|simpl in Hlen; lia].
    - destruct t as [|c t']; [constructor|]. simpl in Hlen.
      cbn [universal_newlines].
      destruct (N.eqb_spec c CR_char) as [E|E].
      + constructor; [discriminate|].
        destruct t' as [|c' t'']; [constructor|]. simpl in Hlen.
        destruct (c' =? LF_char); apply IH; simpl; lia.
      + constructor; [exact E|]. apply IH. lia. }
  apply (Hn (List.length t)). lia.
Qed.

Lemma universal_newlines_fixed t :
  Forall (fun c => c <> CR_char) t -> universal_newlines t = t.
Proof.
  induction 1 as [|c t Hc _ IH]; [reflexivity|].
  cbn [universal_newlines].
  destruct (N.eqb_spec c CR_char) as [E|E]; [contradiction|].
  now rewrite IH.
Qed.

Lemma cut_lines_lines t : Forall is_line (cut_lines t).
Proof.
  induction t as [|c t IH]; simpl; [constructor|].
  destruct (N.eqb_spec c LF_char) as [E|E].
  - subst c. constructor; [|exact IH].
    exists []. split; [constructor|]. now left.
  - destruct (cut_lines t) as [|l ls].
    + constructor; [|constructor]. exists [c].
      split; [now constructor|]. right. split; [reflexivity|discriminate].
    + inversion IH as [|? ? (body & Hb & Hl) Hls]; subst.
      constructor; [|exact Hls]. exists (c :: body).
      split; [now constructor|].
      destruct Hl as [->|[-> _]]; [now left|right].
      split; [reflexivity|discriminate].
Qed.

Lemma cut_lines_keeps (P : N -> Prop) t :
  Forall P t -> Forall (Forall P) (cut_lines t).
Proof.
  induction 1 as [|c t Hc Ht IH]; simpl; [constructor|].
  destruct (c =? LF_char).
  - constructor; [now constructor|exact IH].
  - destruct (cut_lines t) as [|l ls].
    + constructor; [now constructor|constructor].
    + inversion IH; subst. constructor; [now constructor|assumption].
Qed.

Lemma cut_lines_line x t :
  Forall (fun c => c <> LF_char) x ->
  cut_lines (x ++ LF_char :: t) = (x ++ [LF_char])%list :: cut_lines t.
Proof.
  induction 1 as [|c x Hc _ IH]; [reflexivity|]. simpl.
  destruct (N.eqb_spec c LF_char) as [E|E]; [contradiction|].
  now rewrite IH.
Qed.

Lemma cut_lines_single x :
  Forall (fun c => c <> LF_char) x -> x <> [] -> cut_lines x = [x].
Proof.
  induction 1 as [|c x Hc Hx IH]; [congruence|]. intros _. simpl.
  destruct (N.eqb_spec c LF_char) as [E|E]; [contradiction|].
  destruct x as [|d x']; [reflexivity|].
  rewrite IH by discriminate. reflexivity.
Qed.

Lemma lstrip_keeps (P : N -> Prop) t : Forall P t -> Forall P (lstrip t).
Proof.
  induction 1 as [|c t Hc Ht IH]; simpl; [constructor|].
  destruct (is_space c); [exact IH|now constructor].
Qed.

Lemma rstrip_keeps (P : N -> Prop) t : Forall P t -> Forall P (rstrip t).
Proof.
  induction 1 as [|c t Hc Ht IH]; simpl; [constructor|].
  destruct (rstrip t) as [|d r].
  - destruct (is_space c); [constructor|now constructor].
  - now constructor.
Qed.

Lemma strip_keeps (P : N -> Prop) t : Forall P t -> Forall P (strip t).
Proof. intros H. now apply rstrip_keeps, lstrip_keeps. Qed.

Lemma rstrip_LF x : rstrip (x ++ [LF_char]) = rstrip x.
Proof.
  induction x as [|c x IH]; [reflexivity|]. simpl. now rewrite IH.
Qed.

Lemma lstrip_LF x :
  lstrip (x ++ [LF_char])
  = match lstrip x with
    | [] => []
    | l => (l ++ [LF_char])%list
    end.
Proof.
  induction x as [|c x IH]; [reflexivity|]. simpl.
  destruct (is_space c); [exact IH|reflexivity].
Qed.

Lemma strip_LF x : strip (x ++ [LF_char]) = strip x.
Proof.
  unfold strip. rewrite lstrip_LF.
  destruct (lstrip x) as [|c l]; [reflexivity|]. apply rstrip_LF.
Qed.

Lemma rstrip_head c t :
  is_space c = false ->
  exists r, rstrip (c :: t) = c :: r.
Proof.
  intros Hc. simpl. destruct (rstrip t) as [|d r]; rewrite ?Hc; eauto.
Qed.

Lemma lstrip_head t :
  lstrip t = [] \/ exists c r, lstrip t = c :: r /\ is_space c = false.
Proof.
  induction t as [|c t IH]; [now left|]. simpl.
  destruct (is_space c) eqn:E; [exact IH|]. right. eauto.
Qed.

Lemma rstrip_rstrip t : rstrip (rstrip t) = rstrip t.
Proof.
  induction t as [|c t IH]; [reflexivity|]. simpl.
  destruct (rstrip t) as [|d r] eqn:E.
  - destruct (is_space c) eqn:Ec; [reflexivity|]. simpl. now rewrite Ec.
  - change (rstrip (c :: d :: r)) with
      (match rstrip (d :: r) with
       | [] => if is_space c then [] else [c]
       | r' => c :: r'
       end).
    now rewrite IH.
Qed.

Lemma strip_strip t : strip (strip t) = strip t.
Proof.
  unfold strip.
  destruct (lstrip_head t) as [E|(c & r & E & Hc)]; rewrite E.
  - reflexivity.
  - destruct (rstrip_head c r Hc) as [r' Hr]. rewrite Hr.
    cbn [lstrip]. rewrite Hc. rewrite <- Hr. apply rstrip_rstrip.
Qed.

End TextLines.

Section ReadBack.

Lemma lines_read_clean content lines :
  read_lines content = Ok lines -> Forall clean lines.
Proof.
  unfold read_lines, readlines.
  destruct (decode content) as [t0|e] eqn:Hd; [|discriminate].
  intros [= <-]. apply Forall_map.
  pose proof (decode_valid _ _ Hd) as Hv.
  assert (HvU : Forall valid_char (universal_newlines t0)).
  { apply universal_newlines_keeps; [left; reflexivity|exact Hv]. }
  pose proof (cut_lines_keeps _ _ HvU) as H1.
  pose proof (cut_lines_keeps _ _ (universal_newlines_no_CR t0)) as H2.
  pose proof (cut_lines_lines (universal_newlines t0)) as H3.
  rewrite Forall_forall in *. intros l Hl.
  specialize (H1 l Hl). specialize (H2 l Hl).
  destruct (H3 l Hl) as (body & Hb & Hbody).
  exists (strip l). split; [reflexivity|]. split; [now apply strip_keeps|].
  split; [apply strip_strip|].
  assert (Hs : strip l = strip body).
  { destruct Hbody as [->|[-> _]]; [apply strip_LF|reflexivity]. }
  rewrite Hs. apply strip_keeps.
  assert (Hcr : Forall (fun c => c <> CR_char) body).
  { destruct Hbody as [->|[-> _]]; [|exact H2].
    apply Forall_app in H2. apply H2. }
  rewrite Forall_forall in *. intros c Hc. split; auto.
Qed.

Lemma append_empty (s : string) : (s ++ "")%string = s.
Proof. induction s as [|a s IH]; simpl; congruence. Qed.

Lemma encode_char_not_empty c : encode_char c <> "".
Proof.
  unfold encode_char.
  destruct (c <? 128)%N; [discriminate|].
  destruct (c <? 2048)%N; [discriminate|].
  destruct (c <? 65536)%N; discriminate.
Qed.

Lemma encode_nil t : encode t = "" -> t = [].
Proof.
  destruct t as [|c t]; [reflexivity|]. simpl.
  pose proof (encode_char_not_empty c) as H.
  destruct (encode_char c); [congruence|discriminate].
Qed.

(** Clean lines, the last of them not empty, are read back from their
    joined text as they were. *)
Lemma read_back (ls : list string) :
  Forall clean ls ->
  last ls "x" <> "" ->
  read_lines (join ls) = Ok ls.
Proof.
  intros Hc Hlast.
  assert (H : exists T,
             decode (join ls) = Ok T /\
             Forall (fun c => c <> CR_char) T /\
             map (fun l => encode (strip l)) (cut_lines T) = ls).
  { induction ls as [|x tl IH]; [exists []; repeat split; constructor|].
    inversion Hc as [|? ? (t & -> & Hv & Hs & Hn) Htl]; subst.
    assert (Hcr : Forall (fun c => c <> CR_char) t).
    { eapply Forall_impl; [|exact Hn]. now intros c [_ H]. }
    assert (Hlf : Forall (fun c => c <> LF_char) t).
    { eapply Forall_impl; [|exact Hn]. now intros c [H _]. }
    destruct tl as [|y tl'].
    - exists t. unfold join. simpl String.concat.
      rewrite <- (append_empty (encode t)), decode_encode_app by exact Hv.
      simpl. rewrite app_nil_r. repeat split; [exact Hcr|].
      rewrite cut_lines_single;
        [cbn [map]; now rewrite Hs, append_empty|exact Hlf|].
      intros ->. now apply Hlast.
    - destruct (IH Htl Hlast) as (T & Hd & HT & Hm).
      exists (t ++ LF_char :: T). rewrite join_cons by discriminate.
      rewrite decode_encode_app by exact Hv.
      change (decode (newline ++ join (y :: tl')))
        with (cons_ok LF_char (decode (join (y :: tl')))).
      rewrite Hd. cbn [cons_ok]. repeat split.
      + apply Forall_app. split; [exact Hcr|].
        constructor; [discriminate|exact HT].
      + rewrite cut_lines_line by exact Hlf. cbn [map].
        rewrite strip_LF, Hs, Hm. reflexivity. }
  destruct H as (T & Hd & HT & Hm).
  unfold read_lines, readlines. rewrite Hd.
  rewrite universal_newlines_fixed by exact HT. now rewrite Hm.
Qed.

End ReadBack.

Section RenderAgain.

Lemma has_dot_app (a b : string) :
  has_dot (a ++ b)%string = has_dot a || has_dot b.
Proof.
  induction a as [|x a IH]; simpl; [reflexivity|].
  now rewrite IH, orb_assoc.
Qed.

Lemma entry_has_dot dom bn line :
  In line (section_entries dom bn) -> has_dot line = true.
Proof.
  intros Hin. unfold section_entries in Hin.
  apply in_flat_map in Hin. destruct Hin as [[name h] [_ Hin]].
  apply in_map_iff in Hin. destruct Hin as [[nwname address] [<- _]].
  unfold format_entry. rewrite !has_dot_app. simpl.
  now rewrite !orb_true_r.
Qed.

Lemma in_firstn_inv {A} (x : A) n l : In x (firstn n l) -> In x l.
Proof.
  revert l. induction n as [|n IH]; intros [|y l]; simpl; try tauto.
  intros [H|H]; auto.
Qed.

Lemma in_skipn_inv {A} (x : A) n l : In x (skipn n l) -> In x l.
Proof.
  revert l. induction n as [|n IH]; intros [|y l]; simpl; auto.
Qed.

(** The render adds no line of its own to the lines it keeps. *)
Lemma without_section_incl x lines :
  In x (without_section lines) -> In x lines.
Proof.
  unfold without_section.
  destruct (index _hostfile_start_marker lines) as [i|]; auto.
  destruct (index _hostfile_end_marker lines) as [j|]; auto.
  unfold del_slice. intros Hin. apply in_app_or in Hin.
  destruct Hin as [H|H]; [eapply in_firstn_inv|eapply in_skipn_inv]; eauto.
Qed.

Lemma marker_clean :
  clean _hostfile_start_marker /\ clean _hostfile_end_marker.
Proof.
  split.
  - exists (match decode _hostfile_start_marker with Ok t => t | _ => [] end).
    split; [reflexivity|]. split; [|split; [reflexivity|]].
    + apply (decode_valid _hostfile_start_marker). reflexivity.
    + repeat constructor; discriminate.
  - exists (match decode _hostfile_end_marker with Ok t => t | _ => [] end).
    split; [reflexivity|]. split; [|split; [reflexivity|]].
    + apply (decode_valid _hostfile_end_marker). reflexivity.
    + repeat constructor; discriminate.
Qed.

(** X15. Rendering again changes nothing: for a file that decodes,
    when the lines the render keeps hold neither marker and the entries
    of the registry are clean lines (valid characters, nothing for
    [strip] to remove, no line end), the text the render writes is read
    back line for line as the lines kept followed by the section, and a
    second render of the same registry writes the same text. *)
Theorem render_again
        (cfg : config) (r : registry) (content : string)
        (lines : list string) :
  read_lines content = Ok lines ->
  ~ In _hostfile_start_marker (without_section lines) ->
  ~ In _hostfile_end_marker (without_section lines) ->
  Forall clean (section_entries (domain cfg) (byname r)) ->
  read_lines (rendered cfg r content)
  = Ok (without_section lines ++ new_section (domain cfg) (byname r)) /\
  rendered cfg r (rendered cfg r content) = rendered cfg r content.
Proof.
  intros Hread Hs He Hc.
  assert (Hback : read_lines (rendered cfg r content)
                  = Ok (without_section lines
                          ++ new_section (domain cfg) (byname r))).
  { rewrite (rendered_read cfg r content lines Hread). apply read_back.
    - apply Forall_app. split.
      + apply Forall_forall. intros x Hx.
        apply without_section_incl in Hx.
        revert x Hx. apply Forall_forall.
        now apply (lines_read_clean content).
      + unfold new_section. apply Forall_app. split.
        * constructor; [apply marker_clean|constructor].
        * apply Forall_app. split; [exact Hc|].
          constructor; [apply marker_clean|constructor].
    - unfold new_section. rewrite !app_assoc. rewrite last_last.
      discriminate. }
  split; [exact Hback|].
  rewrite (rendered_read cfg r (rendered cfg r content) _ Hback).
  rewrite (rendered_read cfg r content lines Hread).
  f_equal. f_equal.
  unfold new_section at 1. cbn [app].
  rewrite without_section_delimited.
  - apply app_nil_r.
  - exact Hs.
  - intros Hin. apply in_app_or in Hin. destruct Hin as [Hin|Hin].
    + now apply He.
    + apply entry_has_dot in Hin. discriminate Hin.
Qed.

End RenderAgain.

Section RenderAgainSample.

Lemma render_again_witness :
  rendered quiet (reg (web_world "")) section_in_the_middle_file
  = "127.0.0.1 localhost
192.168.1.1 router
# === start dnsthing ===
10.0.0.2 web.app.docker
# === end dnsthing ===" /\
  rendered quiet (reg (web_world ""))
           (rendered quiet (reg (web_world "")) section_in_the_middle_file)
  = rendered quiet (reg (web_world "")) section_in_the_middle_file.
Proof.
  split; [reflexivity|].
  apply (render_again quiet (reg (web_world "")) section_in_the_middle_file
           ["127.0.0.1 localhost"; "# === start dnsthing ===";
            "10.9.9.9 stale.app.docker"; "# === end dnsthing ===";
            "192.168.1.1 router"] eq_refl).
  - intros [H|[H|[]]]; discriminate H.
  - intros [H|[H|[]]]; discriminate H.
  - constructor; [|constructor].
    exists (match decode "10.0.0.2 web.app.docker" with
            | Ok t => t
            | Raise _ => []
            end).
    split; [reflexivity|]. split; [|split; [reflexivity|]].
    + apply (decode_valid "10.0.0.2 web.app.docker"). reflexivity.
    + repeat constructor; discriminate.
Defined.

End RenderAgainSample.
